(** * purge-tool-backend: scanner contract, filtering policy, safe removal
      and the scan/cleanup orchestrator

    A shallow embedding of [purge_core/models.py], [purge_core/base_scanner.py],
    [purge_core/scanner_manager.py] and the request handling of [server.py].
    Code that touches the machine (filesystem, process table, wall clock,
    uuid source, audit trail) is written in a state-and-exception monad
    over an explicit [World]; the library calls it makes ([pathlib],
    [datetime], [psutil]) raise where the libraries do. *)

From Stdlib Require Import ZArith Ascii.
From stdpp Require Import base decidable option list gmap strings pretty.

Local Open Scope string_scope.
Local Open Scope list_scope.

(* ================================================================== *)
(** * Part I. Definitions *)
(* ================================================================== *)

(** ** models.py *)

Inductive OSPlatform := WINDOWS | LINUX | MACOS | ALL.

Inductive CleanupCategory :=
  | TEMP_FILES | BROWSER_CACHE | BROWSER_COOKIES | BROWSER_HISTORY
  | SYSTEM_LOGS | APPLICATION_LOGS | RECYCLE_BIN | MEMORY_DUMPS
  | SOFTWARE_CACHE | PACKAGE_CACHE | THUMBNAILS | DOWNLOADS | OTHER.

Inductive SafetyLevel := SAFE | WARNING | DANGEROUS | CRITICAL.

Global Instance OSPlatform_eq_dec : EqDecision OSPlatform.
Proof. solve_decision. Defined.

Global Instance CleanupCategory_eq_dec : EqDecision CleanupCategory.
Proof. solve_decision. Defined.

Global Instance SafetyLevel_eq_dec : EqDecision SafetyLevel.
Proof. solve_decision. Defined.

(** The [.value] of the string-valued enum [OSPlatform]. *)
Definition OSPlatform_value (p : OSPlatform) : string :=
  match p with
  | WINDOWS => "windows" | LINUX => "linux" | MACOS => "macos" | ALL => "all"
  end.

(** An absolute [pathlib.Path]: the components below the root. *)
Definition Path := list string.

(** [str(path)]. *)
Definition str_path (p : Path) : string :=
  match p with
  | [] => "/"
  | _ => foldr (λ c acc, "/" +:+ c +:+ acc) "" p
  end.

(** A naive [datetime], as microseconds since the epoch; [time.time()] is
    read off the same clock.  Python's [datetime] ranges from
    0001-01-01 00:00:00 to 9999-12-31 23:59:59.999999. *)
Definition datetime := Z.

Definition datetime_min : datetime := (-62135596800000000)%Z.
Definition datetime_max : datetime := 253402300799999999%Z.

(** A [datetime] field of an item: naive, as [datetime.fromtimestamp]
    builds it, or aware, carrying a [tzinfo] with an offset from UTC, as
    the constructor of the model class builds it from a string that has
    one. *)
Inductive Timestamp :=
  | Naive (t : datetime)
  | Aware (t : datetime) (utcoffset : Z).

Module WasteItem.
Record t := mk {
  path : Path;
  size : Z;
  category : CleanupCategory;
  description : string;
  safety_level : SafetyLevel;
  last_accessed : option Timestamp;
  last_modified : option Timestamp;
  owner : option string;
  process_locked : bool;
  metadata : list (string * string);
}.
End WasteItem.

(** [sum(item.size for item in items)] *)
Definition sum_sizes (items : list WasteItem.t) : Z :=
  foldr (λ item acc, (WasteItem.size item + acc)%Z) 0%Z items.

Module ScanResult.
Record t := mk {
  scan_id : string;
  timestamp : datetime;
  total_found : nat;
  total_size : Z;
  items : list WasteItem.t;
  errors : list string;
  platform : OSPlatform;
  duration : Z;
}.
End ScanResult.

(** One entry of [CleanupResult.failed_items]: the dict with the keys
    ['path'], ['error'] and ['scanner']. *)
Module FailedItem.
Record t := mk { path : string; error : string; scanner : string }.
End FailedItem.

Module CleanupResult.
Record t := mk {
  cleanup_id : string;
  timestamp : datetime;
  total_removed : nat;
  total_freed : Z;
  removed_items : list WasteItem.t;
  failed_items : list FailedItem.t;
  errors : list string;
  duration : Z;
}.
End CleanupResult.

Module ScannerConfig.
Record t := mk {
  enabled : bool;
  priority : Z;
  max_file_size : option Z;
  min_file_age_days : Z;
  exclude_patterns : list string;
  include_patterns : list string;
}.

(** [ScannerConfig()] *)
Definition default : t :=
  {| enabled := true; priority := 10; max_file_size := None;
     min_file_age_days := 1; exclude_patterns := []; include_patterns := [] |}.
End ScannerConfig.

(** ** Exceptions and generators *)

(** The exception classes the code names, those its library calls raise,
    and [Exception] for any other instance of [Exception].
    [PermissionError] and [FileNotFoundError] are subclasses of [OSError]. *)
Inductive ExcClass :=
  | PermissionError | FileNotFoundError | OSError
  | NoSuchProcess | AccessDenied | ValueError
  | OverflowError | TypeError | AttributeError | Exception.

Record exn := Exn { exc_class : ExcClass; exc_str : string }.

Definition is_PermissionError (e : exn) : bool :=
  match exc_class e with PermissionError => true | _ => false end.

Definition is_OSError (e : exn) : bool :=
  match exc_class e with
  | PermissionError | FileNotFoundError | OSError => true
  | _ => false
  end.

Inductive outcome (A : Type) :=
  | Return (a : A)
  | Raise (e : exn).
Arguments Return {A} a.
Arguments Raise {A} e.

Global Instance outcome_ret : MRet outcome := @Return.

Global Instance outcome_bind : MBind outcome := λ A B f o,
  match o with
  | Return a => f a
  | Raise e => Raise e
  end.

(** ** datetime arithmetic *)

(** [timedelta(days=days)], in microseconds: the number of days has to fit
    a C int, and its magnitude may not exceed 999999999. *)
Definition timedelta (days : Z) : outcome Z :=
  if bool_decide (-2147483648 ≤ days ≤ 2147483647)%Z then
    if bool_decide (-999999999 ≤ days ≤ 999999999)%Z
    then Return (days * 86400000000)%Z
    else Raise (Exn OverflowError
                  ("days=" +:+ pretty days
                     +:+ "; must have magnitude <= 999999999"))
  else Raise (Exn OverflowError "Python int too large to convert to C int").

(** [t - delta] for a [datetime] and a [timedelta]: the difference has to
    be a [datetime] again. *)
Definition datetime_sub (t : datetime) (delta : Z) : outcome datetime :=
  if bool_decide (datetime_min ≤ t - delta ≤ datetime_max)%Z
  then Return (t - delta)%Z
  else Raise (Exn OverflowError "date value out of range").

(** [a > b] for a [datetime] field [a] and a naive [datetime] [b]. *)
Definition datetime_gt (a : Timestamp) (b : datetime) : outcome bool :=
  match a with
  | Naive t => Return (t >? b)%Z
  | Aware _ _ =>
      Raise (Exn TypeError
               "can't compare offset-naive and offset-aware datetimes")
  end.

(** A generator run to exhaustion: the values it yields, ending either in
    [StopIteration] or in an exception raised from its body. *)
Inductive Generator (A : Type) :=
  | Stop
  | Yield (a : A) (rest : Generator A)
  | Throw (e : exn).
Arguments Stop {A}.
Arguments Yield {A} a rest.
Arguments Throw {A} e.

(** ** The machine *)

Inductive Kind := RegularFile | Directory | Special.

Global Instance Kind_eq_dec : EqDecision Kind.
Proof. solve_decision. Defined.

(** The error numbers with which the operating system may refuse a call
    on an entry. *)
Inductive Errno := EACCES | EPERM | EBUSY | EROFS | EIO | ENAMETOOLONG.

(** A filesystem entry.  [fault] is the error the operating system answers
    with when the entry is unlinked or removed, if any. *)
Record Node := mkNode { kind : Kind; fault : option Errno }.

(** The exception [OSError(errno, ...)] constructs: [EACCES] and [EPERM]
    give a [PermissionError]. *)
Definition os_error (errno : Errno) : exn :=
  match errno with
  | EACCES => Exn PermissionError "[Errno 13] Permission denied"
  | EPERM => Exn PermissionError "[Errno 1] Operation not permitted"
  | EBUSY => Exn OSError "[Errno 16] Device or resource busy"
  | EROFS => Exn OSError "[Errno 30] Read-only file system"
  | EIO => Exn OSError "[Errno 5] Input/output error"
  | ENAMETOOLONG => Exn OSError "[Errno 36] File name too long"
  end.

(** What [psutil.process_iter(['pid', 'name', 'open_files'])] enumerates:
    per process the outcome of reading its open files ([None] when psutil
    has no list to give), the enumeration itself possibly failing. *)
Inductive ProcIter :=
  | PStop
  | PYield (open_files : outcome (option (list Path))) (rest : ProcIter)
  | PRaise (e : exn).

Inductive AuditRecord :=
  | AuditScan (r : ScanResult.t)
  | AuditCleanup (r : CleanupResult.t).

Record World := mkWorld {
  fs : gmap Path Node;
  procs : ProcIter;
  system : string;              (* platform.system().lower() *)
  clock : nat → datetime;       (* successive readings of the wall clock *)
  uuid4 : nat → string;         (* successive str(uuid.uuid4()) *)
  ticks : nat;                  (* readings taken so far *)
  audit : list AuditRecord;
  stat_refused : gmap Path Errno;
    (* the paths on which the operating system refuses every call, a
       directory on the way not being searchable or the name being too
       long, with the error it answers *)
}.

Definition set_fs (m : gmap Path Node) (w : World) : World :=
  mkWorld m (procs w) (system w) (clock w) (uuid4 w) (ticks w) (audit w)
    (stat_refused w).

Definition tick (w : World) : World :=
  mkWorld (fs w) (procs w) (system w) (clock w) (uuid4 w) (S (ticks w)) (audit w)
    (stat_refused w).

Definition add_audit (r : AuditRecord) (w : World) : World :=
  mkWorld (fs w) (procs w) (system w) (clock w) (uuid4 w) (ticks w)
    (audit w ++ [r]) (stat_refused w).

(** Computations over the machine that return or raise. *)
Definition M (A : Type) : Type := World → outcome A * World.

Definition ret {A} (a : A) : M A := λ w, (Return a, w).

Global Instance M_ret : MRet M := @ret.

Global Instance M_bind : MBind M := λ A B f c w,
  match c w with
  | (Return a, w') => f a w'
  | (Raise e, w') => (Raise e, w')
  end.

Definition raise {A} (e : exn) : M A := λ w, (Raise e, w).

(** A call that reads nothing off the machine. *)
Definition of_outcome {A} (o : outcome A) : M A := λ w, (o, w).

(** [try: body  except ... as e: handler e] *)
Definition try_except {A} (body : M A) (handler : exn → M A) : M A := λ w,
  match body w with
  | (Return a, w') => (Return a, w')
  | (Raise e, w') => handler e w'
  end.

Definition get_world : M World := λ w, (Return w, w).

(** [datetime.now()], and [time.time()] in the same unit. *)
Definition datetime_now : M datetime := λ w, (Return (clock w (ticks w)), tick w).
Definition time_time : M Z := datetime_now.

(** A [for] loop over a list whose body may raise. *)
Fixpoint for_each {A} (l : list A) (body : A → M unit) : M unit :=
  match l with
  | [] => ret tt
  | x :: l' => body x ;; for_each l' body
  end.

(** ** pathlib

    The filesystem is a table from absolute paths to entries.  The probes
    [exists], [is_file] and [is_dir] call [stat]: they answer from the
    table, and re-raise the error of a [stat] that the operating system
    refuses for another reason than the entry being missing (pathlib of
    Python 3.11).  [unlink] and [rmdir] may be refused by the operating
    system as well. *)

Definition descendant_of (p q : Path) : Prop := p `prefix_of` q ∧ p ≠ q.

Global Instance descendant_of_dec p q : Decision (descendant_of p q).
Proof. unfold descendant_of. apply _. Defined.

Definition descendants (m : gmap Path Node) (p : Path) : list Path :=
  filter (descendant_of p) (map_to_list m).*1.

Definition has_kind (k : Kind) (m : gmap Path Node) (p : Path) : bool :=
  match m !! p with
  | Some n => bool_decide (kind n = k)
  | None => false
  end.

(** [path.stat()], as far as the probes look at it: it raises when the
    call is refused. *)
Definition path_stat (p : Path) : M unit := λ w,
  match stat_refused w !! p with
  | Some errno => (Raise (os_error errno), w)
  | None => (Return tt, w)
  end.

Definition path_exists (p : Path) : M bool :=
  path_stat p;;
  w ← get_world; ret (bool_decide (is_Some (fs w !! p))).

Definition path_is_file (p : Path) : M bool :=
  path_stat p;;
  w ← get_world; ret (has_kind RegularFile (fs w) p).

Definition path_is_dir (p : Path) : M bool :=
  path_stat p;;
  w ← get_world; ret (has_kind Directory (fs w) p).

(** [path.rglob('*')]: every entry below [p], as found when the walk starts. *)
Definition path_rglob (p : Path) : M (list Path) :=
  w ← get_world; ret (descendants (fs w) p).

(** The entry that a call on [p] finds, unless the call is refused. *)
Definition path_lookup (p : Path) : M (option Node) :=
  path_stat p;; w ← get_world; ret (fs w !! p).

Definition path_unlink (p : Path) : M unit :=
  found ← path_lookup p;
  match found with
  | None => raise (Exn FileNotFoundError (str_path p))
  | Some n =>
      match fault n with
      | Some errno => raise (os_error errno)
      | None =>
          if bool_decide (kind n = Directory)
          then raise (Exn OSError ("Is a directory: " +:+ str_path p))
          else λ w, (Return tt, set_fs (delete p (fs w)) w)
      end
  end.

Definition path_rmdir (p : Path) : M unit :=
  found ← path_lookup p;
  match found with
  | None => raise (Exn FileNotFoundError (str_path p))
  | Some n =>
      if negb (bool_decide (kind n = Directory))
      then raise (Exn OSError ("Not a directory: " +:+ str_path p))
      else
        w ← get_world;
        if negb (bool_decide (descendants (fs w) p = []))
        then raise (Exn OSError ("Directory not empty: " +:+ str_path p))
        else match fault n with
             | Some errno => raise (os_error errno)
             | None => λ w, (Return tt, set_fs (delete p (fs w)) w)
             end
  end.

(** ** base_scanner.py *)

(** A scanner as the manager sees it: an object answering the methods of
    the scanner contract.  [scan] and [cleanup] are bound methods; a
    subclass may supply its own, and either may raise. *)
Module Scanner.
Record t := mk {
  name : string;
  config : ScannerConfig.t;
  get_supported_platforms : list OSPlatform;
  get_category : CleanupCategory;
  description : string;
  is_supported : bool;
  scan : M (list WasteItem.t);
  cleanup : list WasteItem.t → M (list Path);
}.
End Scanner.

(** What a concrete subclass of [BaseScanner] supplies: its class name and
    the four abstract members, discovery being a generator. *)
Module ScannerClass.
Record t := mk {
  __name__ : string;
  get_supported_platforms : list OSPlatform;
  get_category : CleanupCategory;
  description : string;
  _scan_implementation : Generator WasteItem.t;
}.
End ScannerClass.

Module BaseScanner.

(** The instance attributes set by [__init__]. *)
Record self_t := mkSelf {
  cls : ScannerClass.t;
  config : ScannerConfig.t;
  _current_platform : OSPlatform;
}.

Definition _detect_platform : M OSPlatform :=
  w ← get_world;
  if bool_decide (system w = "windows") then ret WINDOWS
  else if bool_decide (system w = "linux") then ret LINUX
  else if bool_decide (system w = "darwin") then ret MACOS
  else raise (Exn ValueError ("Unsupported platform: " +:+ system w)).

Definition __init__ (c : ScannerClass.t) (config : option ScannerConfig.t)
  : M self_t :=
  p ← _detect_platform;
  ret (mkSelf c (default ScannerConfig.default config) p).

Definition is_supported (self : self_t) : bool :=
  let supported := ScannerClass.get_supported_platforms (cls self) in
  bool_decide (ALL ∈ supported) || bool_decide (_current_platform self ∈ supported).

Fixpoint locked_in (ps : ProcIter) (path : Path) : bool :=
  match ps with
  | PStop => false
  | PRaise _ => false
  | PYield (Return (Some files)) rest =>
      if bool_decide (path ∈ files) then true else locked_in rest path
  | PYield (Return None) rest => locked_in rest path
  | PYield (Raise e) rest =>
      match exc_class e with
      | NoSuchProcess | AccessDenied => locked_in rest path
      | _ => false
      end
  end.

Definition _is_file_locked (path : Path) : M bool :=
  w ← get_world; ret (locked_in (procs w) path).

(** [for child in children: if child.is_file(): child.unlink()] *)
Definition unlink_files (children : list Path) : M unit :=
  for_each children (λ child,
    cf ← path_is_file child;
    if cf : bool then path_unlink child else ret tt).

Definition _safe_remove (path : Path) : M bool :=
  ex ← path_exists path;
  if negb ex then ret false
  else
    locked ← _is_file_locked path;
    if locked : bool then ret false
    else
      try_except
        (isf ← path_is_file path;
         (if isf : bool then path_unlink path
          else
            isd ← path_is_dir path;
            if isd : bool then
              children ← path_rglob path;
              unlink_files children;;
              path_rmdir path
            else ret tt);;
         ret true)
        (λ e,
           if is_PermissionError e then ret false
           else if is_OSError e then ret false
           else raise e).

Fixpoint cleanup_loop (items : list WasteItem.t) (removed : list Path)
  : M (list Path) :=
  match items with
  | [] => ret removed
  | item :: rest =>
      removed' ← try_except
                   (ok ← _safe_remove (WasteItem.path item);
                    ret (if ok : bool then removed ++ [WasteItem.path item]
                          else removed))
                   (λ _, ret removed);
      cleanup_loop rest removed'
  end.

Definition cleanup (self : self_t) (items : list WasteItem.t) : M (list Path) :=
  if negb (is_supported self) then ret []
  else cleanup_loop items [].

Section filtering.
(** [fnmatch.fnmatch name pattern] *)
Variable fnmatch : string → string → bool.

Definition exceeds_max_size (config : ScannerConfig.t) (item : WasteItem.t)
  : bool :=
  match ScannerConfig.max_file_size config with
  | Some m => negb (m =? 0)%Z && (WasteItem.size item >? m)%Z
  | None => false
  end.

Definition matches_any (patterns : list string) (item : WasteItem.t) : bool :=
  existsb (fnmatch (str_path (WasteItem.path item))) patterns.

Definition _should_include (self : self_t) (item : WasteItem.t) : M bool :=
  too_recent ←
    match WasteItem.last_modified item with
    | Some last_modified =>
        now ← datetime_now;
        delta ← of_outcome
                  (timedelta (ScannerConfig.min_file_age_days (config self)));
        min_age ← of_outcome (datetime_sub now delta);
        of_outcome (datetime_gt last_modified min_age)
    | None => ret false
    end;
  if too_recent : bool then ret false
  else if exceeds_max_size (config self) item then ret false
  else if matches_any (ScannerConfig.exclude_patterns (config self)) item
  then ret false
  else
    match ScannerConfig.include_patterns (config self) with
    | [] => ret true
    | include_patterns => ret (matches_any include_patterns item)
    end.

(** The loop of [scan], inside its [try]: an exception from discovery
    or from the filter ends the loop and leaves [items] as it is. *)
Fixpoint scan_loop (self : self_t) (g : Generator WasteItem.t)
    (items : list WasteItem.t) : M (list WasteItem.t) :=
  match g with
  | Stop => ret items
  | Throw _ => ret items
  | Yield item rest => λ w,
      match _should_include self item w with
      | (Return keep, w') =>
          scan_loop self rest (if keep then items ++ [item] else items) w'
      | (Raise _, w') => (Return items, w')
      end
  end.

Definition scan (self : self_t) : M (list WasteItem.t) :=
  if negb (is_supported self) then ret []
  else if negb (ScannerConfig.enabled (config self)) then ret []
  else scan_loop self (ScannerClass._scan_implementation (cls self)) [].

(** The instance as an object. *)
Definition obj (self : self_t) : Scanner.t :=
  {| Scanner.name := ScannerClass.__name__ (cls self);
     Scanner.config := config self;
     Scanner.get_supported_platforms :=
       ScannerClass.get_supported_platforms (cls self);
     Scanner.get_category := ScannerClass.get_category (cls self);
     Scanner.description := ScannerClass.description (cls self);
     Scanner.is_supported := is_supported self;
     Scanner.scan := scan self;
     Scanner.cleanup := cleanup self |}.

(** Instantiating a subclass: [__init__], then the object. *)
Definition new (c : ScannerClass.t) (config : option ScannerConfig.t)
  : M Scanner.t :=
  self ← __init__ c config; ret (obj self).
End filtering.

End BaseScanner.

(** ** scanner_manager.py *)

(** [purge_core/audit_logger.py] is not among the sources; the manager
    only calls its two entry points, so the audit logger is an object
    supplied to the manager. *)
Module AuditLogger.
Record t := mk {
  log_scan : ScanResult.t → M unit;
  log_cleanup : CleanupResult.t → M unit;
}.

(** A logger that files every report in the audit trail. *)
Definition recording : t :=
  {| log_scan := λ r w, (Return tt, add_audit (AuditScan r) w);
     log_cleanup := λ r w, (Return tt, add_audit (AuditCleanup r) w) |}.
End AuditLogger.

(** One entry of [get_scanner_info()]. *)
Module ScannerInfo.
Record t := mk {
  name : string;
  category : CleanupCategory;
  description : string;
  enabled : bool;
  supported : bool;
  platforms : list string;
}.
End ScannerInfo.

Module ScannerManager.

Record t := mk {
  scanners : list Scanner.t;
  audit_logger : AuditLogger.t;
}.

(** [ScannerManager()], without a plugin directory to walk. *)
Definition __init__ (logger : AuditLogger.t) : t := mk [] logger.

Definition register_scanner (self : t) (scanner : Scanner.t) : t :=
  if Scanner.is_supported scanner
  then mk (scanners self ++ [scanner]) (audit_logger self)
  else self.

Definition register_scanner_class (self : t) (scanner_class : M Scanner.t)
  : M t :=
  scanner ← scanner_class; ret (register_scanner self scanner).

(** [str(uuid.uuid4())[:8]] *)
Definition _generate_id : M string := λ w,
  (Return (String.substring 0 8 (uuid4 w (ticks w))), tick w).

Definition _detect_platform : M OSPlatform :=
  w ← get_world;
  if bool_decide (system w = "windows") then ret WINDOWS
  else if bool_decide (system w = "linux") then ret LINUX
  else if bool_decide (system w = "darwin") then ret MACOS
  else raise (Exn ValueError ("Unsupported platform: " +:+ system w)).

Definition is_enabled (s : Scanner.t) : Prop :=
  ScannerConfig.enabled (Scanner.config s) = true.

Global Instance is_enabled_dec s : Decision (is_enabled s).
Proof. unfold is_enabled. apply _. Defined.

Definition _filter_scanners (self : t) (scanner_names : option (list string))
  : list Scanner.t :=
  match scanner_names with
  | None | Some [] => filter is_enabled (scanners self)
  | Some names =>
      filter (λ s, Scanner.name s ∈ names ∧ is_enabled s) (scanners self)
  end.

(** [result.items.extend(items)] and [result.errors.append(error_msg)] *)
Definition extend_items (result : ScanResult.t) (items : list WasteItem.t)
  : ScanResult.t :=
  ScanResult.mk (ScanResult.scan_id result) (ScanResult.timestamp result)
    (ScanResult.total_found result) (ScanResult.total_size result)
    (ScanResult.items result ++ items) (ScanResult.errors result)
    (ScanResult.platform result) (ScanResult.duration result).

Definition append_error (result : ScanResult.t) (error_msg : string)
  : ScanResult.t :=
  ScanResult.mk (ScanResult.scan_id result) (ScanResult.timestamp result)
    (ScanResult.total_found result) (ScanResult.total_size result)
    (ScanResult.items result) (ScanResult.errors result ++ [error_msg])
    (ScanResult.platform result) (ScanResult.duration result).

Definition scan_error_msg (scanner : Scanner.t) (e : exn) : string :=
  "Scanner " +:+ Scanner.name scanner +:+ " failed: " +:+ exc_str e.

Fixpoint run_scanners (scanners_to_run : list Scanner.t) (result : ScanResult.t)
  : M ScanResult.t :=
  match scanners_to_run with
  | [] => ret result
  | scanner :: rest =>
      result' ← try_except
                  (items ← Scanner.scan scanner; ret (extend_items result items))
                  (λ e, ret (append_error result (scan_error_msg scanner e)));
      run_scanners rest result'
  end.

Definition scan_system (self : t) (scanner_names : option (list string))
  : M ScanResult.t :=
  start_time ← time_time;
  scan_id ← _generate_id;
  platform ← _detect_platform;
  timestamp ← datetime_now;
  let result := ScanResult.mk scan_id timestamp 0 0 [] [] platform 0 in
  let scanners_to_run := _filter_scanners self scanner_names in
  result ← run_scanners scanners_to_run result;
  end_time ← time_time;
  let result :=
    ScanResult.mk (ScanResult.scan_id result) (ScanResult.timestamp result)
      (length (ScanResult.items result)) (sum_sizes (ScanResult.items result))
      (ScanResult.items result) (ScanResult.errors result)
      (ScanResult.platform result) (end_time - start_time) in
  AuditLogger.log_scan (audit_logger self) result;;
  ret result.

(** The first registered scanner declaring [category], with its position
    in [self.scanners]. *)
Definition owner (scanners : list Scanner.t) (category : CleanupCategory)
  : option (nat * Scanner.t) :=
  list_find (λ scanner, Scanner.get_category scanner = category) scanners.

(** [items_by_scanner[scanner].append(item)] on the [defaultdict(list)]:
    keys are scanner objects, compared by identity (here: by position in
    [self.scanners]) and kept in order of first insertion. *)
Fixpoint dict_append (d : list (nat * Scanner.t * list WasteItem.t))
    (key : nat) (scanner : Scanner.t) (item : WasteItem.t)
  : list (nat * Scanner.t * list WasteItem.t) :=
  match d with
  | [] => [(key, scanner, [item])]
  | (k, s, its) :: d' =>
      if bool_decide (k = key) then (k, s, its ++ [item]) :: d'
      else (k, s, its) :: dict_append d' key scanner item
  end.

Definition group_items (scanners : list Scanner.t) (items : list WasteItem.t)
  : list (nat * Scanner.t * list WasteItem.t) :=
  foldl (λ d item,
           match owner scanners (WasteItem.category item) with
           | Some (i, scanner) => dict_append d i scanner item
           | None => d
           end) [] items.

Definition failure (scanner : Scanner.t) (item : WasteItem.t) : FailedItem.t :=
  {| FailedItem.path := str_path (WasteItem.path item);
     FailedItem.error := "Cleanup failed";
     FailedItem.scanner := Scanner.name scanner |}.

Definition returned (removed_paths : list Path) (item : WasteItem.t) : Prop :=
  WasteItem.path item ∈ removed_paths.

Global Instance returned_dec removed_paths item :
  Decision (returned removed_paths item).
Proof. unfold returned. apply _. Defined.

(** The body of the [try] once [scanner.cleanup] has returned. *)
Definition credit (result : CleanupResult.t) (scanner : Scanner.t)
    (scanner_items : list WasteItem.t) (removed_paths : list Path)
  : CleanupResult.t :=
  CleanupResult.mk (CleanupResult.cleanup_id result)
    (CleanupResult.timestamp result)
    (CleanupResult.total_removed result) (CleanupResult.total_freed result)
    (CleanupResult.removed_items result
       ++ filter (returned removed_paths) scanner_items)
    (CleanupResult.failed_items result
       ++ (failure scanner <$>
             filter (λ item, ¬ returned removed_paths item) scanner_items))
    (CleanupResult.errors result) (CleanupResult.duration result).

Definition cleanup_error_msg (scanner : Scanner.t) (e : exn) : string :=
  "Cleanup failed for scanner " +:+ Scanner.name scanner +:+ ": " +:+ exc_str e.

Definition append_cleanup_error (result : CleanupResult.t) (error_msg : string)
  : CleanupResult.t :=
  CleanupResult.mk (CleanupResult.cleanup_id result)
    (CleanupResult.timestamp result)
    (CleanupResult.total_removed result) (CleanupResult.total_freed result)
    (CleanupResult.removed_items result) (CleanupResult.failed_items result)
    (CleanupResult.errors result ++ [error_msg]) (CleanupResult.duration result).

Fixpoint dispatch (items_by_scanner : list (nat * Scanner.t * list WasteItem.t))
    (result : CleanupResult.t) : M CleanupResult.t :=
  match items_by_scanner with
  | [] => ret result
  | (_, scanner, scanner_items) :: rest =>
      result' ← try_except
                  (removed_paths ← Scanner.cleanup scanner scanner_items;
                   ret (credit result scanner scanner_items removed_paths))
                  (λ e, ret (append_cleanup_error result
                               (cleanup_error_msg scanner e)));
      dispatch rest result'
  end.

Definition cleanup (self : t) (items : list WasteItem.t) (dry_run : bool)
  : M CleanupResult.t :=
  start_time ← time_time;
  cleanup_id ← _generate_id;
  timestamp ← datetime_now;
  let result := CleanupResult.mk cleanup_id timestamp 0 0 [] [] [] 0 in
  if dry_run then
    end_time ← time_time;
    ret (CleanupResult.mk cleanup_id timestamp (length items) (sum_sizes items)
           items [] [] (end_time - start_time))
  else
    result ← dispatch (group_items (scanners self) items) result;
    end_time ← time_time;
    let result :=
      CleanupResult.mk (CleanupResult.cleanup_id result)
        (CleanupResult.timestamp result)
        (length (CleanupResult.removed_items result))
        (sum_sizes (CleanupResult.removed_items result))
        (CleanupResult.removed_items result) (CleanupResult.failed_items result)
        (CleanupResult.errors result) (end_time - start_time) in
    AuditLogger.log_cleanup (audit_logger self) result;;
    ret result.

Definition get_scanner_info (self : t) : list ScannerInfo.t :=
  (λ scanner,
     {| ScannerInfo.name := Scanner.name scanner;
        ScannerInfo.category := Scanner.get_category scanner;
        ScannerInfo.description := Scanner.description scanner;
        ScannerInfo.enabled := ScannerConfig.enabled (Scanner.config scanner);
        ScannerInfo.supported := Scanner.is_supported scanner;
        ScannerInfo.platforms :=
          OSPlatform_value <$> Scanner.get_supported_platforms scanner |})
  <$> scanners self.

End ScannerManager.

(** ** The scanners of scanners/system_scanner.py and browser_scanner.py

    Their discovery walks per-OS path tables; here it is the generator
    [found] that the walk amounts to on a given machine. *)

Definition SystemTempScanner (found : Generator WasteItem.t) : ScannerClass.t :=
  {| ScannerClass.__name__ := "SystemTempScanner";
     ScannerClass.get_supported_platforms := [ALL];
     ScannerClass.get_category := TEMP_FILES;
     ScannerClass.description := "System temporary files and cache";
     ScannerClass._scan_implementation := found |}.

Definition SystemLogsScanner (found : Generator WasteItem.t) : ScannerClass.t :=
  {| ScannerClass.__name__ := "SystemLogsScanner";
     ScannerClass.get_supported_platforms := [ALL];
     ScannerClass.get_category := SYSTEM_LOGS;
     ScannerClass.description := "System and application log files";
     ScannerClass._scan_implementation := found |}.

Definition ChromeScanner (found : Generator WasteItem.t) : ScannerClass.t :=
  {| ScannerClass.__name__ := "ChromeScanner";
     ScannerClass.get_supported_platforms := [WINDOWS; LINUX; MACOS];
     ScannerClass.get_category := BROWSER_CACHE;
     ScannerClass.description := "Chrome browser data";
     ScannerClass._scan_implementation := found |}.

Definition FirefoxScanner (found : Generator WasteItem.t) : ScannerClass.t :=
  {| ScannerClass.__name__ := "FirefoxScanner";
     ScannerClass.get_supported_platforms := [WINDOWS; LINUX; MACOS];
     ScannerClass.get_category := BROWSER_CACHE;
     ScannerClass.description := "Firefox browser data";
     ScannerClass._scan_implementation := found |}.

(** [JSONRPCServer._register_scanners] (server.py), also the registrations
    of [main] (main.py). *)
Definition _register_scanners (fnmatch : string → string → bool)
    (temp logs chrome firefox : Generator WasteItem.t)
    (manager : ScannerManager.t) : M ScannerManager.t :=
  m1 ← ScannerManager.register_scanner_class manager
         (BaseScanner.new fnmatch (SystemTempScanner temp) None);
  m2 ← ScannerManager.register_scanner_class m1
         (BaseScanner.new fnmatch (SystemLogsScanner logs) None);
  m3 ← ScannerManager.register_scanner_class m2
         (BaseScanner.new fnmatch (ChromeScanner chrome) None);
  ScannerManager.register_scanner_class m3
    (BaseScanner.new fnmatch (FirefoxScanner firefox) None).

(** ** Observations used in the statements *)

(** What the age gate of [_should_include] does when the clock shows
    [now]: its verdict, or the exception its date arithmetic raises. *)
Definition too_recent (self : BaseScanner.self_t) (item : WasteItem.t)
    (now : datetime) : outcome bool :=
  match WasteItem.last_modified item with
  | Some last_modified =>
      delta ← timedelta
                (ScannerConfig.min_file_age_days (BaseScanner.config self));
      min_age ← datetime_sub now delta;
      datetime_gt last_modified min_age
  | None => Return false
  end.

(** What its size, exclusion and inclusion gates decide together. *)
Definition passes_other_gates (fnmatch : string → string → bool)
    (self : BaseScanner.self_t) (item : WasteItem.t) : bool :=
  let config := BaseScanner.config self in
  negb (BaseScanner.exceeds_max_size config item)
  && negb (BaseScanner.matches_any fnmatch
             (ScannerConfig.exclude_patterns config) item)
  && match ScannerConfig.include_patterns config with
     | [] => true
     | include_patterns => BaseScanner.matches_any fnmatch include_patterns item
     end.

(** A computation that returns or raises an [OSError], and touches nothing
    but the filesystem. *)
Definition os_call {A} (c : M A) : Prop :=
  ∀ w, ∃ m, (∃ a, c w = (Return a, set_fs m w))
            ∨ (∃ e, c w = (Raise e, set_fs m w) ∧ is_OSError e = true).


(** The calls [scanner.scan()] that [run_scanners] makes, in order, each
    with what it did. *)
Fixpoint scan_calls (scanners_to_run : list Scanner.t) (w : World)
  : list (Scanner.t * outcome (list WasteItem.t)) :=
  match scanners_to_run with
  | [] => []
  | scanner :: rest =>
      let '(o, w') := Scanner.scan scanner w in
      (scanner, o) :: scan_calls rest w'
  end.

(** The calls [scanner.cleanup(scanner_items)] that [dispatch] makes. *)
Fixpoint cleanup_calls (items_by_scanner : list (nat * Scanner.t * list WasteItem.t))
    (w : World)
  : list (nat * Scanner.t * list WasteItem.t * outcome (list Path)) :=
  match items_by_scanner with
  | [] => []
  | (i, scanner, scanner_items) :: rest =>
      let '(o, w') := Scanner.cleanup scanner scanner_items w in
      (i, scanner, scanner_items, o) :: cleanup_calls rest w'
  end.

(** What the calls of a scan gave: the candidates of those that returned,
    and the error messages for those that raised. *)
Definition returned_items (calls : list (Scanner.t * outcome (list WasteItem.t)))
  : list WasteItem.t :=
  calls ≫= λ '(_, o), match o with Return found => found | Raise _ => [] end.

Definition raised_errors (calls : list (Scanner.t * outcome (list WasteItem.t)))
  : list string :=
  calls ≫= λ '(scanner, o),
    match o with
    | Return _ => []
    | Raise e => [ScannerManager.scan_error_msg scanner e]
    end.

(** What the calls of a cleanup gave: the items credited as removed, the
    failure records, and the error messages for the calls that raised. *)
Definition credited_items
    (calls : list (nat * Scanner.t * list WasteItem.t * outcome (list Path)))
  : list WasteItem.t :=
  calls ≫= λ '(_, _, scanner_items, o),
    match o with
    | Return removed_paths =>
        filter (ScannerManager.returned removed_paths) scanner_items
    | Raise _ => []
    end.

Definition recorded_failures
    (calls : list (nat * Scanner.t * list WasteItem.t * outcome (list Path)))
  : list FailedItem.t :=
  calls ≫= λ '(_, scanner, scanner_items, o),
    match o with
    | Return removed_paths =>
        ScannerManager.failure scanner <$>
          filter (λ item, ¬ ScannerManager.returned removed_paths item) scanner_items
    | Raise _ => []
    end.

Definition cleanup_errors
    (calls : list (nat * Scanner.t * list WasteItem.t * outcome (list Path)))
  : list string :=
  calls ≫= λ '(_, scanner, _, o),
    match o with
    | Return _ => []
    | Raise e => [ScannerManager.cleanup_error_msg scanner e]
    end.

(** The machine on which [scan_system] and [cleanup] start their loop: the
    start time, the report id and the report timestamp have been read. *)
Definition after_header (w : World) : World := tick (tick (tick w)).

(** The calls made by [scan_system(scanner_names)] started on [w]. *)
Definition scans_of (self : ScannerManager.t) (scanner_names : option (list string))
    (w : World) : list (Scanner.t * outcome (list WasteItem.t)) :=
  scan_calls (ScannerManager._filter_scanners self scanner_names) (after_header w).

(** The calls made by [cleanup(items, dry_run=False)] started on [w]. *)
Definition dispatches_of (self : ScannerManager.t) (items : list WasteItem.t)
    (w : World)
  : list (nat * Scanner.t * list WasteItem.t * outcome (list Path)) :=
  cleanup_calls (ScannerManager.group_items (ScannerManager.scanners self) items)
    (after_header w).

(** Platform detection succeeds on the machine, with [p]. *)
Definition detects (w : World) (p : OSPlatform) : Prop :=
  (ScannerManager._detect_platform w).1 = Return p.

(** The audit logger hands control back. *)
Definition logger_returns (logger : AuditLogger.t) : Prop :=
  (∀ r w, ∃ w', AuditLogger.log_scan logger r w = (Return tt, w'))
  ∧ (∀ r w, ∃ w', AuditLogger.log_cleanup logger r w = (Return tt, w')).

(** The instance [self] with another discovery. *)
Definition with_discovery (self : BaseScanner.self_t)
    (found : Generator WasteItem.t) : BaseScanner.self_t :=
  BaseScanner.mkSelf
    (ScannerClass.mk (ScannerClass.__name__ (BaseScanner.cls self))
       (ScannerClass.get_supported_platforms (BaseScanner.cls self))
       (ScannerClass.get_category (BaseScanner.cls self))
       (ScannerClass.description (BaseScanner.cls self))
       found)
    (BaseScanner.config self) (BaseScanner._current_platform self).

(** A manager all of whose scanners came in through [register_scanner]. *)
Inductive registered : ScannerManager.t → Prop :=
  | registered_init logger :
      registered (ScannerManager.__init__ logger)
  | registered_step self scanner :
      registered self →
      registered (ScannerManager.register_scanner self scanner).

(** A generator that yields [l] and stops, and one that yields [l] and
    then raises [e]. *)
Definition yields {A} (l : list A) : Generator A := foldr Yield Stop l.
Definition yields_then_raises {A} (l : list A) (e : exn) : Generator A :=
  foldr Yield (Throw e) l.

(** ** Sample data for the worked cases *)

(** Shell-style matching for patterns made of literal characters, [?] and
    [*]: the bracket-free fragment of [fnmatch] patterns. *)
Fixpoint glob (pattern : string) : string → bool :=
  match pattern with
  | EmptyString => λ name, bool_decide (name = EmptyString)
  | String c pattern' =>
      if bool_decide (c = "*"%char) then
        fix star (name : string) : bool :=
          glob pattern' name
          || match name with
             | EmptyString => false
             | String _ name' => star name'
             end
      else λ name,
        match name with
        | EmptyString => false
        | String d name' =>
            (bool_decide (c = "?"%char) || bool_decide (c = d)) && glob pattern' name'
        end
  end.

(** [fnmatch.fnmatch name pattern] on such patterns. *)
Definition glob_fnmatch (name pattern : string) : bool := glob pattern name.

Definition file_item (p : Path) (sz : Z) (c : CleanupCategory) (s : SafetyLevel)
    (modified : option datetime) : WasteItem.t :=
  {| WasteItem.path := p; WasteItem.size := sz; WasteItem.category := c;
     WasteItem.description := "sample"; WasteItem.safety_level := s;
     WasteItem.last_accessed := Naive <$> modified;
     WasteItem.last_modified := Naive <$> modified;
     WasteItem.owner := None; WasteItem.process_locked := false;
     WasteItem.metadata := [] |}.

Definition day : Z := 86400000000.
Definition half_a_day : datetime := (day / 2)%Z.
Definition hundred_days : datetime := (100 * day)%Z.

(** A Linux machine: two files and a directory tree under /tmp, one file
    held open by a process, one file that may not be unlinked. *)
Definition sample_fs : gmap Path Node :=
  list_to_map
    [ (["tmp"], mkNode Directory None);
      (["tmp"; "a.tmp"], mkNode RegularFile None);
      (["tmp"; "held.tmp"], mkNode RegularFile None);
      (["tmp"; "ro.tmp"], mkNode RegularFile (Some EACCES));
      (["tmp"; "d"], mkNode Directory None);
      (["tmp"; "d"; "x"], mkNode RegularFile None);
      (["tmp"; "d"; "sub"], mkNode Directory None);
      (["tmp"; "d"; "sub"; "y"], mkNode RegularFile None);
      (["tmp"; "flat"], mkNode Directory None);
      (["tmp"; "flat"; "z"], mkNode RegularFile None);
      (["home"], mkNode Directory None);
      (["home"; "Cookies"], mkNode RegularFile None) ].

Definition sample_world (now : datetime) : World :=
  {| fs := sample_fs;
     procs := PYield (Return None)
                (PYield (Return (Some [["tmp"; "held.tmp"]])) PStop);
     system := "linux";
     clock := λ n, (now + Z.of_nat n)%Z;
     uuid4 := λ _, "123e4567-e89b-12d3-a456-426614174000";
     ticks := 0;
     audit := [];
     stat_refused := ∅ |}.

Definition a_tmp : WasteItem.t :=
  file_item ["tmp"; "a.tmp"] 10240 TEMP_FILES SAFE (Some 0%Z).
Definition held_tmp : WasteItem.t :=
  file_item ["tmp"; "held.tmp"] 7 TEMP_FILES SAFE (Some 0%Z).
Definition cookies : WasteItem.t :=
  file_item ["home"; "Cookies"] 2048 BROWSER_COOKIES DANGEROUS (Some 0%Z).
Definition z_log : WasteItem.t :=
  file_item ["tmp"; "flat"; "z"] 500 SYSTEM_LOGS WARNING None.

Definition linux_self (c : ScannerClass.t) : BaseScanner.self_t :=
  BaseScanner.mkSelf c ScannerConfig.default LINUX.

(** A temp-file scanner told to leave [*.tmp] alone and to report only
    what lies under /tmp. *)
Definition guarded_self : BaseScanner.self_t :=
  BaseScanner.mkSelf (SystemTempScanner Stop)
    {| ScannerConfig.enabled := true; ScannerConfig.priority := 10;
       ScannerConfig.max_file_size := None; ScannerConfig.min_file_age_days := 1;
       ScannerConfig.exclude_patterns := ["*.log"; "*.tmp"];
       ScannerConfig.include_patterns := ["/tmp/*"] |}
    LINUX.

(** The same scanner told to take only what has lain untouched for three
    million days. *)
Definition patient_self : BaseScanner.self_t :=
  BaseScanner.mkSelf (SystemTempScanner Stop)
    {| ScannerConfig.enabled := true; ScannerConfig.priority := 10;
       ScannerConfig.max_file_size := None;
       ScannerConfig.min_file_age_days := 3000000;
       ScannerConfig.exclude_patterns := ["*.log"; "*.tmp"];
       ScannerConfig.include_patterns := ["/tmp/*"] |}
    LINUX.

(** /tmp/a.tmp with its modification time given in UTC. *)
Definition a_tmp_utc : WasteItem.t :=
  {| WasteItem.path := ["tmp"; "a.tmp"]; WasteItem.size := 10240;
     WasteItem.category := TEMP_FILES; WasteItem.description := "sample";
     WasteItem.safety_level := SAFE;
     WasteItem.last_accessed := Some (Aware 0%Z 0%Z);
     WasteItem.last_modified := Some (Aware 0%Z 0%Z);
     WasteItem.owner := None; WasteItem.process_locked := false;
     WasteItem.metadata := [] |}.

Definition linux_scanner (c : ScannerClass.t) : Scanner.t :=
  BaseScanner.obj glob_fnmatch (linux_self c).

Definition cache_file : WasteItem.t :=
  file_item ["home"; "cache"; "f_000001"] 4096 BROWSER_CACHE SAFE (Some 0%Z).

Definition walk_failed : exn := Exn Exception "walk failed".

(** The discoveries of the sample scanners: the log sweep raises after its
    first find. *)
Definition temp_found : Generator WasteItem.t := yields [a_tmp; held_tmp].
Definition logs_found : Generator WasteItem.t := yields_then_raises [z_log] walk_failed.
Definition chrome_found : Generator WasteItem.t := yields [cache_file; cookies].

(** Three registered, enabled scanners; the middle one's discovery raises. *)
Definition three_scanners : ScannerManager.t :=
  foldl ScannerManager.register_scanner
    (ScannerManager.__init__ AuditLogger.recording)
    [ linux_scanner (SystemTempScanner temp_found);
      linux_scanner (SystemLogsScanner logs_found);
      linux_scanner (ChromeScanner chrome_found) ].

(** A scanner object with methods of its own: both [scan] and [cleanup]
    raise. *)
Definition broken_scanner (c : CleanupCategory) : Scanner.t :=
  {| Scanner.name := "BrokenScanner";
     Scanner.config := ScannerConfig.default;
     Scanner.get_supported_platforms := [ALL];
     Scanner.get_category := c;
     Scanner.description := "raises";
     Scanner.is_supported := true;
     Scanner.scan := raise (Exn Exception "boom");
     Scanner.cleanup := λ _, raise (Exn Exception "boom") |}.

(** Three scanners of which the middle one's [scan] raises. *)
Definition broken_in_the_middle : ScannerManager.t :=
  foldl ScannerManager.register_scanner
    (ScannerManager.__init__ AuditLogger.recording)
    [ linux_scanner (SystemTempScanner temp_found);
      broken_scanner OTHER;
      linux_scanner (ChromeScanner chrome_found) ].


(** ** Further observations: filtering, scanning and the lock probe *)

(** The instance [self] with another size limit. *)
Definition with_max_file_size (self : BaseScanner.self_t) (limit : option Z)
  : BaseScanner.self_t :=
  BaseScanner.mkSelf (BaseScanner.cls self)
    (ScannerConfig.mk
       (ScannerConfig.enabled (BaseScanner.config self))
       (ScannerConfig.priority (BaseScanner.config self))
       limit
       (ScannerConfig.min_file_age_days (BaseScanner.config self))
       (ScannerConfig.exclude_patterns (BaseScanner.config self))
       (ScannerConfig.include_patterns (BaseScanner.config self)))
    (BaseScanner._current_platform self).

(** The values a generator yields before it stops or raises. *)
Fixpoint yielded {A} (g : Generator A) : list A :=
  match g with
  | Stop => []
  | Yield a rest => a :: yielded rest
  | Throw _ => []
  end.

(** The processes an enumeration shows, up to its end or its failure. *)
Fixpoint enumerated (ps : ProcIter) : list (outcome (option (list Path))) :=
  match ps with
  | PStop => []
  | PYield info rest => info :: enumerated rest
  | PRaise _ => []
  end.

(** The enumeration runs to its end, and whenever a process cannot be
    read the error is one of the two the lock probe passes over. *)
Fixpoint enumeration_completes (ps : ProcIter) : Prop :=
  match ps with
  | PStop => True
  | PYield (Return _) rest => enumeration_completes rest
  | PYield (Raise e) rest =>
      (exc_class e = NoSuchProcess ∨ exc_class e = AccessDenied)
      ∧ enumeration_completes rest
  | PRaise _ => False
  end.

(** ** models.py: [ScanResult.by_category] *)

(** [result.setdefault(item.category, []).append(item)] on a dict, kept in
    order of first insertion. *)
Fixpoint setdefault_append (result : list (CleanupCategory * list WasteItem.t))
    (category : CleanupCategory) (item : WasteItem.t)
  : list (CleanupCategory * list WasteItem.t) :=
  match result with
  | [] => [(category, [item])]
  | (k, its) :: result' =>
      if bool_decide (k = category) then (k, its ++ [item]) :: result'
      else (k, its) :: setdefault_append result' category item
  end.

Definition by_category (self : ScanResult.t)
  : list (CleanupCategory * list WasteItem.t) :=
  foldl (λ result item, setdefault_append result (WasteItem.category item) item)
    [] (ScanResult.items self).

(** ** server.py *)

(** The JSON side of the server is kept abstract.  A request is what
    [json.loads] gives: a dict, of which the server reads three keys (an
    absent key being [None]), or any other JSON value.  The value under
    ['method'] is a string, a value that cannot be hashed, or another
    value; the value under ['params'] is a dict, of which the handlers
    read a list of names, a list of item records and a boolean, or another
    value.  The item records of a cleanup request are of a type
    [ItemData], with [validate] standing for the body of the loop that
    rebuilds the items: the conversion of ['path'] and the constructor
    [WasteItem(...)], which raises when the record does not validate.  A
    result is the report it is the plain-dict image of. *)
Module JSONRPCServer.

Inductive Result :=
  | Pong (status message : string)
  | ScanDump (r : ScanResult.t)
  | CleanupDump (r : CleanupResult.t)
  | ScannerInfos (l : list ScannerInfo.t)
  | NoneResult.

Inductive Response :=
  | Success (id : option string) (result : Result)
  | Error (id : option string) (code : Z) (message : string).

Definition _success_response (request_id : option string) (result : Result)
  : Response := Success request_id result.

Definition _error_response (request_id : option string) (code : Z)
    (message : string) : Response := Error request_id code message.

Record t := mk {
  manager : ScannerManager.t;
  last_scan_result : option ScanResult.t;
}.


(** [value.get] on a JSON value that is no dict, named by its Python
    type: [list], [str], [int], [float], [bool] or [NoneType]. *)
Definition no_attribute_get (type_name : string) : exn :=
  Exn AttributeError ("'" +:+ type_name +:+ "' object has no attribute 'get'").

(** Hashing a [list] or a [dict]. *)
Definition unhashable (type_name : string) : exn :=
  Exn TypeError ("unhashable type: '" +:+ type_name +:+ "'").

Section handlers.
Variable ItemData : Type.
Variable validate : ItemData → outcome WasteItem.t.

(** The keys of a dict ['params'] that the handlers read. *)
Record Params := mkParams {
  scanner_names : option (list string);
  items : option (list ItemData);
  dry_run : option bool;
}.

Inductive ParamsValue :=
  | ParamsDict (p : Params)
  | ParamsOther (type_name : string).

Inductive MethodValue :=
  | MethodStr (s : string)
  | MethodUnhashable (type_name : string)  (* a list or a dict *)
  | MethodOther.                           (* null, a boolean, a number *)

(** The keys of a dict request that [handle_request] reads. *)
Record Request := mkRequest {
  method : option MethodValue;
  params : option ParamsValue;
  id : option string;
}.

Inductive RequestValue :=
  | RequestDict (r : Request)
  | RequestOther (type_name : string).

(** [request.get] and [params.get]. *)
Definition request_get (request : RequestValue) : M Request :=
  match request with
  | RequestDict r => ret r
  | RequestOther type_name => raise (no_attribute_get type_name)
  end.

Definition params_get (params : ParamsValue) : M Params :=
  match params with
  | ParamsDict p => ret p
  | ParamsOther type_name => raise (no_attribute_get type_name)
  end.

Definition handle_ping (self : t) (params : ParamsValue) : M (Result * t) :=
  ret (Pong "ok" "pong", self).

Definition handle_scan (self : t) (params : ParamsValue) : M (Result * t) :=
  p ← params_get params;
  result ← ScannerManager.scan_system (manager self) (scanner_names p);
  ret (ScanDump result, mk (manager self) (Some result)).

(** The loop rebuilding the [WasteItem] objects. *)
Fixpoint build_items (items_data : list ItemData) (items : list WasteItem.t)
  : M (list WasteItem.t) :=
  match items_data with
  | [] => ret items
  | item_data :: rest =>
      match validate item_data with
      | Return item => build_items rest (items ++ [item])
      | Raise e => raise e
      end
  end.

Definition handle_cleanup (self : t) (params : ParamsValue) : M (Result * t) :=
  p ← params_get params;
  items ← build_items (default [] (items p)) [];
  result ← ScannerManager.cleanup (manager self) items
             (default false (dry_run p));
  ret (CleanupDump result, self).

Definition handle_get_scanners (self : t) (params : ParamsValue)
  : M (Result * t) :=
  ret (ScannerInfos (ScannerManager.get_scanner_info (manager self)), self).

Definition handle_get_scan_results (self : t) (params : ParamsValue)
  : M (Result * t) :=
  match last_scan_result self with
  | Some result => ret (ScanDump result, self)
  | None => ret (NoneResult, self)
  end.

(** [self._handlers]: the handler registered under a method name. *)
Definition _handlers (method : string)
  : option (t → ParamsValue → M (Result * t)) :=
  if bool_decide (method = "ping") then Some handle_ping
  else if bool_decide (method = "scan") then Some handle_scan
  else if bool_decide (method = "cleanup") then Some handle_cleanup
  else if bool_decide (method = "get_scanners") then Some handle_get_scanners
  else if bool_decide (method = "get_scan_results")
       then Some handle_get_scan_results
  else None.

(** [method not in self._handlers], then [self._handlers[method]]: the
    lookup hashes the value. *)
Definition find_handler (method : option MethodValue)
  : M (option (t → ParamsValue → M (Result * t))) :=
  match method with
  | Some (MethodStr s) => ret (_handlers s)
  | Some (MethodUnhashable type_name) => raise (unhashable type_name)
  | Some MethodOther | None => ret None
  end.

Definition handle_request (self : t) (request : RequestValue)
  : M (Response * t) :=
  try_except
    (r ← request_get request;
     found ← find_handler (method r);
     match found with
     | None =>
         ret (_error_response (id r) (-32601) "Method not found", self)
     | Some handler =>
         '(result, self') ← handler self
                              (default (ParamsDict (mkParams None None None))
                                 (params r));
         ret (_success_response (id r) result, self')
     end)
    (λ e,
       r ← request_get request;
       ret (_error_response (id r) (-32603) (exc_str e), self)).

End handlers.

(** [JSONRPCServer()]: a fresh manager with the four scanners registered. *)
Definition __init__ (fnmatch : string → string → bool)
    (logger : AuditLogger.t) (temp logs chrome firefox : Generator WasteItem.t)
  : M t :=
  manager ← _register_scanners fnmatch temp logs chrome firefox
              (ScannerManager.__init__ logger);
  ret (mk manager None).


End JSONRPCServer.

(** An enumeration that shows [infos] first and then goes on as [rest]. *)
Definition enumerate_first (infos : list (outcome (option (list Path))))
    (rest : ProcIter) : ProcIter :=
  foldr PYield rest infos.

(** The process read as [info] has [path] among its open files. *)
Definition holds_open (path : Path) (info : outcome (option (list Path))) : Prop :=
  ∃ files, info = Return (Some files) ∧ path ∈ files.

(** ** Further observations: the orchestrator *)

(** The requested items that have an owning scanner. *)
Definition owned_items (scanners : list Scanner.t) (items : list WasteItem.t)
  : list WasteItem.t :=
  filter (λ item, is_Some (ScannerManager.owner scanners (WasteItem.category item)))
    items.

(** The items handed to scanners whose [cleanup] raised. *)
Definition abandoned_items
    (calls : list (nat * Scanner.t * list WasteItem.t * outcome (list Path)))
  : list WasteItem.t :=
  calls ≫= λ '(_, _, scanner_items, o),
    match o with
    | Return _ => []
    | Raise _ => scanner_items
    end.

(** Item records as a cleanup request carries them: [Some item] for a
    record from which [WasteItem(...)] builds [item], [None] for one it
    refuses. *)
Definition sample_validate (item_data : option WasteItem.t)
  : outcome WasteItem.t :=
  match item_data with
  | Some item => Return item
  | None => Raise (Exn Exception "1 validation error for WasteItem")
  end.

(** A file of a category that [broken_scanner OTHER] declares. *)
Definition stray_file : WasteItem.t :=
  file_item ["tmp"; "a.tmp"] 10240 OTHER SAFE (Some 0%Z).

(** The sample machine with /root not searchable: every call on
    /root/secret is refused with [EACCES]. *)
Definition unsearchable_world : World :=
  mkWorld sample_fs (procs (sample_world hundred_days)) "linux"
    (clock (sample_world hundred_days)) (uuid4 (sample_world hundred_days)) 0 []
    {[ ["root"; "secret"] := EACCES ]}.

(** The sample machine with a process that cannot be read, enumerated
    before the process that holds /tmp/held.tmp open. *)
Definition unreadable_world : World :=
  mkWorld sample_fs
    (PYield (Return None)
       (PYield (Raise (Exn Exception "process cannot be read"))
          (PYield (Return (Some [["tmp"; "held.tmp"]])) PStop)))
    "linux"
    (clock (sample_world hundred_days)) (uuid4 (sample_world hundred_days)) 0 []
    ∅.

(** A server over the three sample scanners. *)
Definition sample_server : JSONRPCServer.t :=
  JSONRPCServer.mk three_scanners None.

(** The sample machine under an operating system the code does not know. *)
Definition freebsd_world : World :=
  mkWorld sample_fs PStop "freebsd"
    (clock (sample_world hundred_days)) (uuid4 (sample_world hundred_days)) 0 []
    ∅.

(* ================================================================== *)
(** * Part II. Properties *)
(* ================================================================== *)

(** Unfolds the monad of [M] in the goal. *)
Ltac unfold_M :=
  unfold mbind, M_bind, mret, M_ret, ret, raise, try_except, get_world,
    time_time, datetime_now in *; simpl in *.

(** ** Filtering policy *)

Section filtering_policy.
Variable fnmatch : string → string → bool.

Lemma should_include_run self item w :
  BaseScanner._should_include fnmatch self item w =
    (match too_recent self item (clock w (ticks w)) with
     | Return recent =>
         Return (negb recent && passes_other_gates fnmatch self item)
     | Raise e => Raise e
     end,
     match WasteItem.last_modified item with
     | Some _ => tick w
     | None => w
     end).
Proof.
  unfold BaseScanner._should_include, too_recent, passes_other_gates.
  assert (∀ (recent : bool) w',
            (if recent then ret false
             else if BaseScanner.exceeds_max_size (BaseScanner.config self) item
             then ret false
             else if BaseScanner.matches_any fnmatch
                       (ScannerConfig.exclude_patterns (BaseScanner.config self))
                       item
             then ret false
             else match ScannerConfig.include_patterns (BaseScanner.config self)
                  with
                  | [] => ret true
                  | p :: ps => ret (BaseScanner.matches_any fnmatch (p :: ps) item)
                  end) w'
            = (Return (negb recent
                       && (negb (BaseScanner.exceeds_max_size
                                   (BaseScanner.config self) item)
                           && negb (BaseScanner.matches_any fnmatch
                                      (ScannerConfig.exclude_patterns
                                         (BaseScanner.config self)) item)
                           && match ScannerConfig.include_patterns
                                      (BaseScanner.config self) with
                              | [] => true
                              | p :: ps =>
                                  BaseScanner.matches_any fnmatch (p :: ps) item
                              end)), w')) as Hgates.
  { intros [|] w'; [done|]. simpl.
    destruct (BaseScanner.exceeds_max_size _ _); simpl; [done|].
    destruct (BaseScanner.matches_any _ (ScannerConfig.exclude_patterns _) _);
      simpl; [done|].
    by destruct (ScannerConfig.include_patterns _). }
  destruct (WasteItem.last_modified item) as [lm|].
  - unfold mbind, M_bind, outcome_bind, datetime_now, of_outcome.
    destruct (timedelta _) as [delta|e]; [|done].
    destruct (datetime_sub _ delta) as [min_age|e]; [|done].
    destruct (datetime_gt lm min_age) as [recent|e]; [|done].
    apply Hgates.
  - exact (Hgates false w).
Qed.

Lemma should_include_fs self item w :
  fs (BaseScanner._should_include fnmatch self item w).2 = fs w.
Proof.
  rewrite should_include_run. simpl.
  by destruct (WasteItem.last_modified item).
Qed.

Lemma matches_any_true patterns item pattern :
  pattern ∈ patterns →
  fnmatch (str_path (WasteItem.path item)) pattern = true →
  BaseScanner.matches_any fnmatch patterns item = true.
Proof.
  intros Hin Hm. unfold BaseScanner.matches_any.
  apply existsb_exists. exists pattern. split; [|done].
  by apply list_elem_of_In.
Qed.

(** Where the age gate returns, a candidate whose path matches one of the
    exclusion patterns is rejected, whatever the inclusion patterns are;
    where the age gate raises, so does [_should_include]. *)
Theorem excluded_is_rejected self item pattern w :
  pattern ∈ ScannerConfig.exclude_patterns (BaseScanner.config self) →
  fnmatch (str_path (WasteItem.path item)) pattern = true →
  (BaseScanner._should_include fnmatch self item w).1
  = match too_recent self item (clock w (ticks w)) with
    | Return _ => Return false
    | Raise e => Raise e
    end.
Proof.
  intros Hin Hm. rewrite should_include_run. simpl.
  unfold passes_other_gates.
  rewrite (matches_any_true _ _ _ Hin Hm). simpl.
  destruct (too_recent _ _ _); [|done].
  by rewrite andb_false_r, andb_false_r.
Qed.

(** The cut-off of the age gate, [now - timedelta(days=min_file_age_days)],
    where it is a [datetime]. *)
Lemma too_recent_representable self item now lm :
  WasteItem.last_modified item = Some (Naive lm) →
  (-999999999 ≤ ScannerConfig.min_file_age_days (BaseScanner.config self)
     ≤ 999999999)%Z →
  (datetime_min
     ≤ now - ScannerConfig.min_file_age_days (BaseScanner.config self)
               * 86400000000
     ≤ datetime_max)%Z →
  too_recent self item now
  = Return (lm >? now - ScannerConfig.min_file_age_days (BaseScanner.config self)
                          * 86400000000)%Z.
Proof.
  intros Hlm Hdays Hcut. unfold too_recent, timedelta, datetime_sub.
  rewrite Hlm.
  rewrite (bool_decide_eq_true_2 (-2147483648 ≤ _ ≤ 2147483647)%Z) by lia.
  rewrite (bool_decide_eq_true_2 (-999999999 ≤ _ ≤ 999999999)%Z) by done.
  unfold mbind, outcome_bind.
  by rewrite bool_decide_eq_true_2.
Qed.

(** Where the cut-off of the age gate is a [datetime], a candidate with a
    naive [last_modified] less than [min_file_age_days] days before the
    current time is rejected whatever the rest of the configuration; a
    candidate without [last_modified] is never rejected by the age gate. *)
Theorem age_gate_rejects_recent self item w :
  (∀ lm,
     WasteItem.last_modified item = Some (Naive lm) →
     (-999999999 ≤ ScannerConfig.min_file_age_days (BaseScanner.config self)
        ≤ 999999999)%Z →
     (datetime_min
        ≤ clock w (ticks w)
          - ScannerConfig.min_file_age_days (BaseScanner.config self)
            * 86400000000
        ≤ datetime_max)%Z →
     (clock w (ticks w) - lm
        < ScannerConfig.min_file_age_days (BaseScanner.config self)
          * 86400000000)%Z →
     (BaseScanner._should_include fnmatch self item w).1 = Return false)
  ∧ (WasteItem.last_modified item = None →
     (BaseScanner._should_include fnmatch self item w).1
       = Return (passes_other_gates fnmatch self item)).
Proof.
  split.
  - intros lm Hlm Hdays Hcut Hage. rewrite should_include_run. simpl.
    rewrite (too_recent_representable _ _ _ lm Hlm Hdays Hcut).
    replace (lm >? _)%Z with true; [done|].
    symmetry. apply Z.gtb_lt. lia.
  - intros Hlm. rewrite should_include_run. simpl.
    unfold too_recent. by rewrite Hlm.
Qed.

(** C9 (amended). The verdict of [_should_include] is a function of the
    candidate, the configuration and the wall-clock reading the age gate
    takes: evaluations that agree on these agree on the verdict, whatever
    else differs between the two machines; for a candidate without
    [last_modified] the clock is not consulted and the verdict depends on
    candidate and configuration only.  Evaluating it changes nothing on
    the machine but the passage of time. *)
Theorem should_include_deterministic self item w1 w2 :
  (WasteItem.last_modified item = None ∨ clock w1 (ticks w1) = clock w2 (ticks w2)) →
  (BaseScanner._should_include fnmatch self item w1).1
    = (BaseScanner._should_include fnmatch self item w2).1
  ∧ fs (BaseScanner._should_include fnmatch self item w1).2 = fs w1
  ∧ audit (BaseScanner._should_include fnmatch self item w1).2 = audit w1
  ∧ procs (BaseScanner._should_include fnmatch self item w1).2 = procs w1.
Proof.
  intros H. rewrite !should_include_run. simpl.
  split.
  - destruct H as [Hlm | Hclock].
    + unfold too_recent. by rewrite Hlm.
    + by rewrite Hclock.
  - by destruct (WasteItem.last_modified item).
Qed.

End filtering_policy.

(** /tmp/a.tmp matches the exclusion pattern [*.tmp] and the inclusion
    pattern [/tmp/*]; it is rejected. *)
Lemma excluded_is_rejected_witness :
  BaseScanner.matches_any glob_fnmatch
    (ScannerConfig.include_patterns (BaseScanner.config guarded_self)) a_tmp = true
  ∧ (BaseScanner._should_include glob_fnmatch guarded_self a_tmp
       (sample_world hundred_days)).1 = Return false.
Proof.
  split; [reflexivity|].
  rewrite (excluded_is_rejected glob_fnmatch guarded_self a_tmp "*.tmp").
  - vm_compute. reflexivity.
  - vm_compute. right. left.
  - vm_compute. reflexivity.
Defined.

(** Twelve hours after its modification /tmp/a.tmp is rejected by a
    configuration with no other restriction; the undated log is judged by
    the remaining gates alone. *)
Lemma age_gate_rejects_recent_witness :
  (BaseScanner._should_include glob_fnmatch (linux_self (SystemTempScanner Stop))
     a_tmp (sample_world half_a_day)).1 = Return false
  ∧ (BaseScanner._should_include glob_fnmatch guarded_self z_log
       (sample_world half_a_day)).1
    = Return (passes_other_gates glob_fnmatch guarded_self z_log).
Proof.
  split.
  - apply (proj1 (age_gate_rejects_recent glob_fnmatch
                    (linux_self (SystemTempScanner Stop))
                    a_tmp (sample_world half_a_day)) 0%Z).
    + reflexivity.
    + vm_compute. split; discriminate.
    + vm_compute. split; discriminate.
    + vm_compute. reflexivity.
  - apply (proj2 (age_gate_rejects_recent glob_fnmatch guarded_self z_log
                    (sample_world half_a_day))).
    reflexivity.
Defined.

(** C7 (the code where the age gate cannot do its date arithmetic).
    /tmp/a.tmp matches the exclusion pattern [*.tmp] of a configuration
    whose [min_file_age_days] is three million.  The age gate, which runs
    first, computes [datetime.now() - timedelta(days=3000000)], a date
    before the year 1: [_should_include] raises [OverflowError] instead of
    answering [False]. *)
Theorem exclusion_not_reached_on_overflow :
  "*.tmp" ∈ ScannerConfig.exclude_patterns (BaseScanner.config patient_self)
  ∧ glob_fnmatch (str_path (WasteItem.path a_tmp)) "*.tmp" = true
  ∧ (BaseScanner._should_include glob_fnmatch patient_self a_tmp
       (sample_world hundred_days)).1
    = Raise (Exn OverflowError "date value out of range").
Proof.
  split; [right; left|]. split; vm_compute; reflexivity.
Qed.

(** C8 (the code where the age gate cannot do its date arithmetic).
    /tmp/a.tmp was modified a hundred days ago, which is less than the
    three million days the configuration asks for: the age gate raises
    [OverflowError] instead of rejecting it.  And a candidate modified
    half a day ago, whose [last_modified] carries a time zone, makes the
    age gate of the default configuration raise [TypeError]. *)
Theorem age_gate_raises :
  WasteItem.last_modified a_tmp = Some (Naive 0%Z)
  ∧ (clock (sample_world hundred_days) 0 - 0
       < ScannerConfig.min_file_age_days (BaseScanner.config patient_self)
         * 86400000000)%Z
  ∧ (BaseScanner._should_include glob_fnmatch patient_self a_tmp
       (sample_world hundred_days)).1
    = Raise (Exn OverflowError "date value out of range")
  ∧ WasteItem.last_modified a_tmp_utc = Some (Aware 0%Z 0%Z)
  ∧ (BaseScanner._should_include glob_fnmatch
       (linux_self (SystemTempScanner Stop)) a_tmp_utc
       (sample_world half_a_day)).1
    = Raise (Exn TypeError
               "can't compare offset-naive and offset-aware datetimes").
Proof.
  split; [reflexivity|]. split; [vm_compute; reflexivity|].
  split; [vm_compute; reflexivity|]. split; vm_compute; reflexivity.
Qed.

(** C9, as stated, fails: the same candidate under the same configuration
    is rejected twelve hours after its modification and accepted a hundred
    days after it. *)
Lemma should_include_depends_on_clock :
  (BaseScanner._should_include glob_fnmatch (linux_self (SystemTempScanner Stop))
     a_tmp (sample_world half_a_day)).1
  ≠ (BaseScanner._should_include glob_fnmatch (linux_self (SystemTempScanner Stop))
       a_tmp (sample_world hundred_days)).1.
Proof. vm_compute. discriminate. Qed.

(** Two machines that differ in their filesystem but show the same time. *)
Lemma should_include_deterministic_witness :
  (BaseScanner._should_include glob_fnmatch (linux_self (SystemTempScanner Stop))
     a_tmp (sample_world half_a_day)).1
  = (BaseScanner._should_include glob_fnmatch (linux_self (SystemTempScanner Stop))
       a_tmp (set_fs ∅ (sample_world half_a_day))).1.
Proof.
  apply (should_include_deterministic glob_fnmatch
           (linux_self (SystemTempScanner Stop)) a_tmp
           (sample_world half_a_day) (set_fs ∅ (sample_world half_a_day))).
  right. reflexivity.
Defined.

(** ** Safe removal *)

Lemma set_fs_id w : set_fs (fs w) w = w.
Proof. by destruct w. Qed.

Lemma set_fs_set_fs m1 m2 w : set_fs m2 (set_fs m1 w) = set_fs m2 w.
Proof. done. Qed.

Lemma os_call_ret {A} (a : A) : os_call (ret a).
Proof. intros w. exists (fs w). left. exists a. by rewrite set_fs_id. Qed.

Lemma os_call_bind {A B} (c : M A) (f : A → M B) :
  os_call c → (∀ a, os_call (f a)) → os_call (c ≫= f).
Proof.
  intros Hc Hf w. unfold mbind, M_bind.
  destruct (Hc w) as [m [[a ->] | [e [-> He]]]].
  - destruct (Hf a (set_fs m w)) as [m' H]. exists m'.
    by rewrite !set_fs_set_fs in H.
  - exists m. right. eauto.
Qed.

Lemma os_call_raise {A} (e : exn) :
  is_OSError e = true → os_call (@raise A e).
Proof. intros He w. exists (fs w). right. rewrite set_fs_id. by exists e. Qed.

Lemma os_error_is_OSError errno : is_OSError (os_error errno) = true.
Proof. by destruct errno. Qed.

Lemma os_call_stat p : os_call (path_stat p).
Proof.
  intros w. exists (fs w). rewrite set_fs_id. unfold path_stat.
  destruct (stat_refused w !! p) as [errno|]; [right | left].
  - eauto using os_error_is_OSError.
  - by exists tt.
Qed.

Lemma os_call_read {A} (f : World → A) : os_call (w ← get_world; ret (f w)).
Proof. intros w. exists (fs w). left. rewrite set_fs_id. by eexists. Qed.

Lemma os_call_exists p : os_call (path_exists p).
Proof.
  apply os_call_bind; [apply os_call_stat | intros _].
  apply (os_call_read (λ w, bool_decide (is_Some (fs w !! p)))).
Qed.

Lemma os_call_is_file p : os_call (path_is_file p).
Proof.
  apply os_call_bind; [apply os_call_stat | intros _].
  apply (os_call_read (λ w, has_kind RegularFile (fs w) p)).
Qed.

Lemma os_call_is_dir p : os_call (path_is_dir p).
Proof.
  apply os_call_bind; [apply os_call_stat | intros _].
  apply (os_call_read (λ w, has_kind Directory (fs w) p)).
Qed.

Lemma os_call_lookup p : os_call (path_lookup p).
Proof.
  apply os_call_bind; [apply os_call_stat | intros _].
  apply (os_call_read (λ w, fs w !! p)).
Qed.

Lemma os_call_rglob p : os_call (path_rglob p).
Proof. intros w. exists (fs w). left. rewrite set_fs_id. by eexists. Qed.

Lemma os_call_locked p : os_call (BaseScanner._is_file_locked p).
Proof. intros w. exists (fs w). left. rewrite set_fs_id. by eexists. Qed.

Lemma os_call_delete p :
  os_call (λ w, (Return tt, set_fs (delete p (fs w)) w)).
Proof. intros w. exists (delete p (fs w)). left. by exists tt. Qed.

Lemma os_call_unlink p : os_call (path_unlink p).
Proof.
  apply os_call_bind; [apply os_call_lookup|]. intros [n|].
  - destruct (fault n) as [errno|].
    + apply os_call_raise, os_error_is_OSError.
    + case_bool_decide; [by apply os_call_raise | apply os_call_delete].
  - by apply os_call_raise.
Qed.

Lemma os_call_rmdir p : os_call (path_rmdir p).
Proof.
  apply os_call_bind; [apply os_call_lookup|]. intros [n|].
  - destruct (negb _); [by apply os_call_raise|].
    intros w. unfold mbind, M_bind, get_world.
    destruct (negb _); [by apply os_call_raise|].
    destruct (fault n) as [errno|].
    + apply os_call_raise, os_error_is_OSError.
    + apply os_call_delete.
  - by apply os_call_raise.
Qed.

Lemma os_call_for_each {A} (l : list A) (body : A → M unit) :
  (∀ x, os_call (body x)) → os_call (for_each l body).
Proof.
  intros Hbody. induction l as [|x l IH]; simpl.
  - apply os_call_ret.
  - apply os_call_bind; [apply Hbody | intros _; apply IH].
Qed.

Lemma os_call_unlink_files children : os_call (BaseScanner.unlink_files children).
Proof.
  apply os_call_for_each. intros child.
  apply os_call_bind; [apply os_call_is_file|].
  intros [|]; [apply os_call_unlink | apply os_call_ret].
Qed.

(** The calls on a path that is not refused. *)
Lemma stat_run p w :
  stat_refused w !! p = None → path_stat p w = (Return tt, w).
Proof. intros H. unfold path_stat. by rewrite H. Qed.

Lemma exists_run p w :
  stat_refused w !! p = None →
  path_exists p w = (Return (bool_decide (is_Some (fs w !! p))), w).
Proof.
  intros H. unfold path_exists, mbind, M_bind. by rewrite (stat_run _ _ H).
Qed.

Lemma is_file_run p w :
  stat_refused w !! p = None →
  path_is_file p w = (Return (has_kind RegularFile (fs w) p), w).
Proof.
  intros H. unfold path_is_file, mbind, M_bind. by rewrite (stat_run _ _ H).
Qed.

Lemma is_dir_run p w :
  stat_refused w !! p = None →
  path_is_dir p w = (Return (has_kind Directory (fs w) p), w).
Proof.
  intros H. unfold path_is_dir, mbind, M_bind. by rewrite (stat_run _ _ H).
Qed.

Lemma lookup_run p w :
  stat_refused w !! p = None → path_lookup p w = (Return (fs w !! p), w).
Proof.
  intros H. unfold path_lookup, mbind, M_bind. by rewrite (stat_run _ _ H).
Qed.

Lemma is_file_refused p w errno :
  stat_refused w !! p = Some errno →
  path_is_file p w = (Raise (os_error errno), w).
Proof.
  intros H. unfold path_is_file, mbind, M_bind, path_stat. by rewrite H.
Qed.

Lemma unlink_run p w :
  stat_refused w !! p = None →
  path_unlink p w
  = match fs w !! p with
    | None => (Raise (Exn FileNotFoundError (str_path p)), w)
    | Some n =>
        match fault n with
        | Some errno => (Raise (os_error errno), w)
        | None =>
            if bool_decide (kind n = Directory)
            then (Raise (Exn OSError ("Is a directory: " +:+ str_path p)), w)
            else (Return tt, set_fs (delete p (fs w)) w)
        end
    end.
Proof.
  intros H. unfold path_unlink. unfold mbind at 1, M_bind at 1.
  rewrite (lookup_run _ _ H). destruct (fs w !! p) as [n|]; [|done].
  destruct (fault n); [done|]. by case_bool_decide.
Qed.

Lemma rmdir_run p w :
  stat_refused w !! p = None →
  path_rmdir p w
  = match fs w !! p with
    | None => (Raise (Exn FileNotFoundError (str_path p)), w)
    | Some n =>
        if negb (bool_decide (kind n = Directory))
        then (Raise (Exn OSError ("Not a directory: " +:+ str_path p)), w)
        else if negb (bool_decide (descendants (fs w) p = []))
        then (Raise (Exn OSError ("Directory not empty: " +:+ str_path p)), w)
        else match fault n with
             | Some errno => (Raise (os_error errno), w)
             | None => (Return tt, set_fs (delete p (fs w)) w)
             end
    end.
Proof.
  intros H. unfold path_rmdir. unfold mbind at 1, M_bind at 1.
  rewrite (lookup_run _ _ H). destruct (fs w !! p) as [n|]; [|done].
  destruct (negb (bool_decide (kind n = Directory))); [done|].
  unfold mbind, M_bind, get_world.
  destruct (negb _); [done|]. by destruct (fault n).
Qed.

(** The [except] clauses of [_safe_remove] turn every [OSError] into
    [False]. *)
Lemma safe_remove_handler e w :
  is_OSError e = true →
  (if is_PermissionError e then ret false
   else if is_OSError e then ret false else raise e) w = (Return false, w).
Proof. intros ->. by destruct (is_PermissionError e). Qed.

(** [path.exists()] stands before the [try]: when the operating system
    refuses the call, its error leaves [_safe_remove]. *)
Lemma safe_remove_refused path w errno :
  stat_refused w !! path = Some errno →
  BaseScanner._safe_remove path w = (Raise (os_error errno), w).
Proof.
  intros H. unfold BaseScanner._safe_remove, path_exists, path_stat.
  unfold mbind, M_bind. by rewrite H.
Qed.

(** What [_safe_remove] does to an entry that exists and is not held open,
    by the kind of the entry. *)
Lemma safe_remove_unlocked path w n :
  stat_refused w !! path = None →
  fs w !! path = Some n →
  BaseScanner.locked_in (procs w) path = false →
  BaseScanner._safe_remove path w =
    match kind n with
    | RegularFile =>
        match path_unlink path w with
        | (Return _, w') => (Return true, w')
        | (Raise _, w') => (Return false, w')
        end
    | Directory =>
        match BaseScanner.unlink_files (descendants (fs w) path) w with
        | (Return _, w1) =>
            match path_rmdir path w1 with
            | (Return _, w') => (Return true, w')
            | (Raise _, w') => (Return false, w')
            end
        | (Raise _, w1) => (Return false, w1)
        end
    | Special => (Return true, w)
    end.
Proof.
  intros Hstat Hn Hlocked.
  unfold BaseScanner._safe_remove.
  unfold mbind at 1, M_bind at 1. rewrite (exists_run _ _ Hstat), Hn. simpl.
  unfold mbind at 1, M_bind at 1, BaseScanner._is_file_locked at 1.
  unfold mbind at 1, M_bind at 1, get_world at 1. simpl. rewrite Hlocked.
  unfold try_except.
  unfold mbind at 1, M_bind at 1.
  unfold mbind at 1, M_bind at 1. rewrite (is_file_run _ _ Hstat).
  unfold has_kind at 1. rewrite Hn.
  destruct n as [[| |] flt]; simpl.
  - destruct (os_call_unlink path w) as [m [[[] ->] | [e [-> He]]]]; [done|].
    by apply safe_remove_handler.
  - unfold mbind at 1, M_bind at 1. rewrite (is_dir_run _ _ Hstat).
    unfold has_kind at 1. rewrite Hn. simpl.
    unfold mbind at 1, M_bind at 1, path_rglob at 1.
    unfold mbind at 1, M_bind at 1, get_world at 1. simpl.
    unfold mbind at 1, M_bind at 1.
    destruct (os_call_unlink_files (descendants (fs w) path) w)
      as [m [[[] ->] | [e [-> He]]]].
    + destruct (os_call_rmdir path (set_fs m w)) as [m' [[[] ->] | [e [-> He]]]];
        [done|].
      by apply safe_remove_handler.
    + by apply safe_remove_handler.
  - unfold mbind at 1, M_bind at 1. rewrite (is_dir_run _ _ Hstat).
    unfold has_kind at 1. by rewrite Hn.
Qed.

Lemma safe_remove_missing path w :
  stat_refused w !! path = None →
  fs w !! path = None →
  BaseScanner._safe_remove path w = (Return false, w).
Proof.
  intros Hstat Hnone. unfold BaseScanner._safe_remove.
  unfold mbind at 1, M_bind at 1. by rewrite (exists_run _ _ Hstat), Hnone.
Qed.

Lemma safe_remove_locked path w :
  stat_refused w !! path = None →
  BaseScanner.locked_in (procs w) path = true →
  BaseScanner._safe_remove path w = (Return false, w).
Proof.
  intros Hstat Hlocked. unfold BaseScanner._safe_remove.
  unfold mbind at 1, M_bind at 1. rewrite (exists_run _ _ Hstat).
  destruct (bool_decide _); simpl; [|done].
  unfold mbind at 1, M_bind at 1, BaseScanner._is_file_locked at 1.
  unfold mbind at 1, M_bind at 1, get_world at 1. simpl. by rewrite Hlocked.
Qed.

(** Where [path.exists()] answers, [_safe_remove] returns, and touches
    nothing but the filesystem. *)
Lemma safe_remove_returns path w :
  stat_refused w !! path = None →
  ∃ b m, BaseScanner._safe_remove path w = (Return b, set_fs m w).
Proof.
  intros Hstat.
  destruct (fs w !! path) as [n|] eqn:Hn.
  2: { exists false, (fs w). rewrite set_fs_id. by apply safe_remove_missing. }
  destruct (BaseScanner.locked_in (procs w) path) eqn:Hlocked.
  { exists false, (fs w). rewrite set_fs_id. by apply safe_remove_locked. }
  rewrite (safe_remove_unlocked path w n Hstat Hn Hlocked).
  destruct (kind n).
  - destruct (os_call_unlink path w) as [m [[[] ->] | [e [-> He]]]]; eauto.
  - destruct (os_call_unlink_files (descendants (fs w) path) w)
      as [m [[[] ->] | [e [-> He]]]]; [|eauto].
    destruct (os_call_rmdir path (set_fs m w)) as [m' [[[] ->] | [e [-> He]]]];
      rewrite set_fs_set_fs; eauto.
  - exists true, (fs w). by rewrite set_fs_id.
Qed.

(** A call that returns [True] was not refused. *)
Lemma safe_remove_true_stat path w w' :
  BaseScanner._safe_remove path w = (Return true, w') →
  stat_refused w !! path = None.
Proof.
  intros Hrun. destruct (stat_refused w !! path) as [errno|] eqn:H; [|done].
  by rewrite (safe_remove_refused _ _ _ H) in Hrun.
Qed.

Lemma unlink_returns p w w' :
  path_unlink p w = (Return tt, w') → fs w' = delete p (fs w).
Proof.
  destruct (stat_refused w !! p) as [errno|] eqn:Hstat.
  { unfold path_unlink, path_lookup, path_stat, mbind, M_bind.
    by rewrite Hstat. }
  rewrite (unlink_run _ _ Hstat). destruct (fs w !! p) as [n|]; [|done].
  destruct (fault n); [done|]. case_bool_decide; [done|].
  by intros [= <-].
Qed.

Lemma rmdir_returns p w w' :
  path_rmdir p w = (Return tt, w') →
  descendants (fs w) p = [] ∧ fs w' = delete p (fs w).
Proof.
  destruct (stat_refused w !! p) as [errno|] eqn:Hstat.
  { unfold path_rmdir, path_lookup, path_stat, mbind, M_bind.
    by rewrite Hstat. }
  rewrite (rmdir_run _ _ Hstat). destruct (fs w !! p) as [n|]; [|done].
  destruct (negb _); [done|].
  case_bool_decide; simpl; [|done].
  destruct (fault n); [done|]. by intros [= <-].
Qed.

Lemma elem_of_descendants m p q :
  q ∈ descendants m p ↔ is_Some (m !! q) ∧ descendant_of p q.
Proof.
  unfold descendants. rewrite list_elem_of_filter, list_elem_of_fmap. split.
  - intros [Hd [[q' n] [-> Hin]]]. apply elem_of_map_to_list in Hin. eauto.
  - intros [[n Hn] Hd]. split; [done|]. exists (q, n). split; [done|].
    by apply elem_of_map_to_list.
Qed.

(** A successful [_safe_remove] of a file or a directory leaves neither
    the entry nor, for a directory, anything below it. *)
Lemma safe_remove_true_gone path w w' :
  BaseScanner._safe_remove path w = (Return true, w') →
  has_kind RegularFile (fs w) path || has_kind Directory (fs w) path = true →
  fs w' !! path = None
  ∧ (has_kind Directory (fs w) path = true →
     ∀ q, descendant_of path q → fs w' !! q = None).
Proof.
  intros Hrun Hkind. unfold has_kind in *.
  pose proof (safe_remove_true_stat _ _ _ Hrun) as Hstat.
  destruct (fs w !! path) as [n|] eqn:Hn; [|done].
  destruct (BaseScanner.locked_in (procs w) path) eqn:Hlocked.
  { by rewrite safe_remove_locked in Hrun. }
  rewrite (safe_remove_unlocked path w n Hstat Hn Hlocked) in Hrun.
  destruct (kind n) eqn:Hk; [| |done].
  - destruct (path_unlink path w) as [[[]|e] w1] eqn:Hul; [|done].
    injection Hrun as <-.
    apply unlink_returns in Hul. rewrite Hul.
    split; [apply lookup_delete_eq | done].
  - destruct (BaseScanner.unlink_files _ w) as [[[]|e] w1]; [|done].
    destruct (path_rmdir path w1) as [[[]|e] w2] eqn:Hrm; [|done].
    injection Hrun as <-.
    apply rmdir_returns in Hrm as [Hempty Hfs]. rewrite Hfs.
    split; [apply lookup_delete_eq|].
    intros _ q Hq.
    rewrite lookup_delete_ne by (destruct Hq; done).
    destruct (fs w1 !! q) as [nq|] eqn:Hlq; [|done].
    assert (q ∈ descendants (fs w1) path) as Hin
      by (apply elem_of_descendants; eauto).
    rewrite Hempty in Hin. by apply elem_of_nil in Hin.
Qed.





(** A run is its outcome paired with the machine it leaves. *)
Lemma run_eta {A} (r : outcome A * World) (o : outcome A) :
  r.1 = o → r = (o, r.2).
Proof. destruct r. simpl. by intros ->. Qed.


(** C4 (the code where [stat] is refused, and where the lock probe gives
    up).  On a machine where /root is not searchable, [_safe_remove] of
    /root/secret raises the [PermissionError] of [path.exists()], which
    stands before the [try].  On a machine where a process cannot be read,
    /tmp/held.tmp, held open by a process enumerated after it, is judged
    free by the lock probe: [_safe_remove] deletes it and answers [True]. *)
Theorem safe_remove_raises_where_stat_is_refused :
  (∃ e,
     BaseScanner._safe_remove ["root"; "secret"] unsearchable_world
       = (Raise e, unsearchable_world)
     ∧ exc_class e = PermissionError)
  ∧ Exists (holds_open ["tmp"; "held.tmp"]) (enumerated (procs unreadable_world))
  ∧ (let r := BaseScanner._safe_remove ["tmp"; "held.tmp"] unreadable_world in
     r.1 = Return true ∧ fs r.2 !! ["tmp"; "held.tmp"] = None).
Proof.
  split; [|split].
  - exists (os_error EACCES). split; [|reflexivity].
    apply (safe_remove_refused ["root"; "secret"] unsearchable_world EACCES).
    reflexivity.
  - right. right. left. eexists. split; [reflexivity | left].
  - vm_compute. done.
Qed.

(** C3 (the code at a directory with a subdirectory).  Asked to remove
    /tmp/d, which holds the file x and the directory sub with the file y,
    [_safe_remove] unlinks both files, removes neither directory and
    answers [False]. *)
Theorem safe_remove_leaves_subdirectories :
  let r := BaseScanner._safe_remove ["tmp"; "d"] (sample_world hundred_days) in
  r.1 = Return false
  ∧ fs r.2 !! ["tmp"; "d"; "x"] = None
  ∧ fs r.2 !! ["tmp"; "d"; "sub"; "y"] = None
  ∧ fs r.2 !! ["tmp"; "d"; "sub"] = Some (mkNode Directory None)
  ∧ fs r.2 !! ["tmp"; "d"] = Some (mkNode Directory None).
Proof. vm_compute. done. Qed.

(** A directory holding files only is removed, files first. *)
Lemma safe_remove_flat_directory :
  let r := BaseScanner._safe_remove ["tmp"; "flat"] (sample_world hundred_days) in
  r.1 = Return true
  ∧ fs r.2 !! ["tmp"; "flat"; "z"] = None
  ∧ fs r.2 !! ["tmp"; "flat"] = None.
Proof. vm_compute. done. Qed.

(** ** The orchestrator: dry run *)

Lemma sum_sizes_spec items :
  sum_sizes items = foldr Z.add 0%Z (WasteItem.size <$> items).
Proof.
  induction items as [|item items IH]; [done|].
  unfold sum_sizes in *. simpl. by rewrite IH.
Qed.

(** C6. [cleanup(items, dry_run=True)] returns a report that credits every
    requested item as removed and the sum of their sizes as freed, records
    no failure, and leaves the filesystem (and the audit trail) as they
    were, whatever scanners are registered. *)
Theorem dry_run_cleanup self items w :
  ∃ report w',
    ScannerManager.cleanup self items true w = (Return report, w')
    ∧ CleanupResult.removed_items report = items
    ∧ CleanupResult.total_removed report = length items
    ∧ CleanupResult.total_freed report
      = foldr Z.add 0%Z (WasteItem.size <$> items)
    ∧ CleanupResult.failed_items report = []
    ∧ CleanupResult.errors report = []
    ∧ fs w' = fs w
    ∧ audit w' = audit w.
Proof.
  unfold ScannerManager.cleanup, ScannerManager._generate_id. unfold_M.
  eexists _, _. split; [reflexivity|]. simpl.
  split; [done|]. split; [done|]. split; [apply sum_sizes_spec | done].
Qed.

(** Three items of 10240, 2048 and 500 bytes: the dry run reports 3 items
    removed and 12788 bytes freed, and every file is still there. *)
Lemma dry_run_cleanup_witness :
  ∃ report w',
    ScannerManager.cleanup three_scanners [a_tmp; cookies; z_log] true
      (sample_world hundred_days) = (Return report, w')
    ∧ CleanupResult.removed_items report = [a_tmp; cookies; z_log]
    ∧ CleanupResult.total_removed report = 3
    ∧ CleanupResult.total_freed report = 12788%Z
    ∧ fs w' = sample_fs.
Proof.
  destruct (dry_run_cleanup three_scanners [a_tmp; cookies; z_log]
              (sample_world hundred_days))
    as (report & w' & Hrun & Hitems & Hcount & Hfreed & _ & _ & Hfs & _).
  exists report, w'. split; [exact Hrun|]. split; [exact Hitems|].
  split; [exact Hcount|]. split; [|exact Hfs].
  rewrite Hfreed. reflexivity.
Defined.

(** ** The orchestrator: registration *)

Lemma registered_supported self :
  registered self →
  ∀ scanner, scanner ∈ ScannerManager.scanners self →
             Scanner.is_supported scanner = true.
Proof.
  induction 1 as [logger | self scanner Hreg IH]; intros s Hs.
  - by apply elem_of_nil in Hs.
  - unfold ScannerManager.register_scanner in Hs.
    destruct (Scanner.is_supported scanner) eqn:Hsup; [|by apply IH].
    simpl in Hs. apply elem_of_app in Hs as [Hs | Hs]; [by apply IH|].
    apply list_elem_of_singleton in Hs. by subst.
Qed.

Lemma filter_scanners_subset self scanner_names scanner :
  scanner ∈ ScannerManager._filter_scanners self scanner_names →
  scanner ∈ ScannerManager.scanners self
  ∧ ScannerConfig.enabled (Scanner.config scanner) = true.
Proof.
  unfold ScannerManager._filter_scanners.
  destruct scanner_names as [[|name names]|];
    rewrite list_elem_of_filter; unfold ScannerManager.is_enabled; tauto.
Qed.

Lemma scan_calls_scanners scanners_to_run w :
  (scan_calls scanners_to_run w).*1 = scanners_to_run.
Proof.
  revert w. induction scanners_to_run as [|s l IH]; intros w; [done|].
  simpl. destruct (Scanner.scan s w) as [o w']. simpl. by rewrite IH.
Qed.

(** ** The orchestrator: grouping by owning scanner *)

Lemma owner_Some scanners category i scanner :
  ScannerManager.owner scanners category = Some (i, scanner) →
  scanners !! i = Some scanner ∧ Scanner.get_category scanner = category.
Proof.
  unfold ScannerManager.owner. intros H.
  apply list_find_Some in H as (Hi & Hcat & _). done.
Qed.

Section dict_append.
Variables (i : nat) (scanner : Scanner.t) (item : WasteItem.t).

Lemma dict_append_inv d k s its :
  (k, s, its) ∈ ScannerManager.dict_append d i scanner item →
  (k, s, its) ∈ d
  ∨ (k = i ∧ ((s = scanner ∧ its = [item])
              ∨ ∃ its0, (i, s, its0) ∈ d ∧ its = its0 ++ [item])).
Proof.
  induction d as [|[[k0 s0] its0] d IH]; simpl.
  - intros H. apply list_elem_of_singleton in H. naive_solver.
  - case_bool_decide as Hk; subst.
    + intros [H | H]%elem_of_cons.
      * right. injection H as -> -> ->. split; [done|]. right.
        exists its0. split; [left|done].
      * left. by right.
    + intros [H | H]%elem_of_cons.
      * left. rewrite H. left.
      * destruct (IH H) as [? | [-> [? | (its1 & ? & ?)]]].
        -- left. by right.
        -- right. eauto.
        -- right. split; [done|]. right. exists its1. split; [by right|done].
Qed.

Lemma dict_append_mono d k s its :
  (k, s, its) ∈ d →
  ∃ its', (k, s, its') ∈ ScannerManager.dict_append d i scanner item
          ∧ ∀ x, x ∈ its → x ∈ its'.
Proof.
  induction d as [|[[k0 s0] its0] d IH]; simpl.
  - intros H. by apply elem_of_nil in H.
  - intros [H | H]%elem_of_cons.
    + injection H as -> -> ->. case_bool_decide.
      * exists (its0 ++ [item]). split; [left|].
        intros x Hx. apply elem_of_app. by left.
      * exists its0. split; [left|done].
    + case_bool_decide.
      * exists its. split; [by right|done].
      * destruct (IH H) as (its' & ? & ?). exists its'. split; [by right|done].
Qed.

Lemma dict_append_has d :
  ∃ s its, (i, s, its) ∈ ScannerManager.dict_append d i scanner item
           ∧ item ∈ its
           ∧ (s = scanner ∨ ∃ its0, (i, s, its0) ∈ d).
Proof.
  induction d as [|[[k0 s0] its0] d IH]; simpl.
  - exists scanner, [item]. repeat split; [left|left|by left].
  - case_bool_decide as Hk; subst.
    + exists s0, (its0 ++ [item]). split; [left|]. split.
      * apply elem_of_app. right. left.
      * right. exists its0. left.
    + destruct IH as (s & its & ? & ? & Hs). exists s, its.
      split; [by right|]. split; [done|].
      destruct Hs as [-> | [its1 ?]]; [by left|].
      right. exists its1. by right.
Qed.
End dict_append.

(** [group_items] puts every item that has an owner, and no other, into
    the group of its owner. *)
Lemma group_items_spec scanners items :
  let d := ScannerManager.group_items scanners items in
  (∀ i s its, (i, s, its) ∈ d →
     scanners !! i = Some s
     ∧ ∀ item, item ∈ its →
         item ∈ items
         ∧ ScannerManager.owner scanners (WasteItem.category item) = Some (i, s))
  ∧ (∀ item i s,
       item ∈ items →
       ScannerManager.owner scanners (WasteItem.category item) = Some (i, s) →
       ∃ its, (i, s, its) ∈ d ∧ item ∈ its).
Proof.
  unfold ScannerManager.group_items.
  set (step := λ d item, match ScannerManager.owner scanners (WasteItem.category item) with
                         | Some (i, scanner) => ScannerManager.dict_append d i scanner item
                         | None => d
                         end).
  assert (∀ todo done_ d,
    ((∀ i s its, (i, s, its) ∈ d →
        scanners !! i = Some s
        ∧ ∀ item, item ∈ its →
            item ∈ done_
            ∧ ScannerManager.owner scanners (WasteItem.category item) = Some (i, s))
     ∧ (∀ item i s,
          item ∈ done_ →
          ScannerManager.owner scanners (WasteItem.category item) = Some (i, s) →
          ∃ its, (i, s, its) ∈ d ∧ item ∈ its)) →
    let d' := foldl step d todo in
    (∀ i s its, (i, s, its) ∈ d' →
        scanners !! i = Some s
        ∧ ∀ item, item ∈ its →
            item ∈ done_ ++ todo
            ∧ ScannerManager.owner scanners (WasteItem.category item) = Some (i, s))
    ∧ (∀ item i s,
         item ∈ done_ ++ todo →
         ScannerManager.owner scanners (WasteItem.category item) = Some (i, s) →
         ∃ its, (i, s, its) ∈ d' ∧ item ∈ its)) as Hfold.
  { induction todo as [|item todo IH]; intros done_ d [I1 I2].
    - simpl. rewrite app_nil_r. done.
    - simpl. replace (done_ ++ item :: todo) with ((done_ ++ [item]) ++ todo)
        by (by rewrite <- app_assoc).
      apply IH. unfold step.
      destruct (ScannerManager.owner scanners (WasteItem.category item))
        as [[i scanner]|] eqn:Hown.
      + destruct (owner_Some _ _ _ _ Hown) as [Hi _]. split.
        * intros k s its Hin.
          apply dict_append_inv in Hin
            as [Hin | [-> [[-> ->] | (its0 & Hin & ->)]]].
          -- destruct (I1 _ _ _ Hin) as [? Hits]. split; [done|].
             intros x Hx. destruct (Hits x Hx). split; [|done].
             apply elem_of_app. by left.
          -- split; [done|]. intros x Hx. apply list_elem_of_singleton in Hx.
             subst. split; [|done]. apply elem_of_app. right. left.
          -- destruct (I1 _ _ _ Hin) as [Hs Hits]. split; [done|].
             assert (s = scanner) as -> by congruence.
             intros x [Hx | Hx]%elem_of_app.
             ++ destruct (Hits x Hx). split; [|done]. apply elem_of_app. by left.
             ++ apply list_elem_of_singleton in Hx. subst. split; [|done].
                apply elem_of_app. right. left.
        * intros x k s [Hx | Hx]%elem_of_app Hxown.
          -- destruct (I2 _ _ _ Hx Hxown) as (its & Hin & Hxin).
             destruct (dict_append_mono i scanner item _ _ _ _ Hin)
               as (its' & ? & Hsub).
             exists its'. split; [done|]. by apply Hsub.
          -- apply list_elem_of_singleton in Hx. subst x.
             rewrite Hown in Hxown. injection Hxown as <- <-.
             destruct (dict_append_has i scanner item d)
               as (s & its & Hin & Hitem & Hs).
             exists its. split; [|done].
             destruct Hs as [-> | [its0 Hin0]]; [done|].
             destruct (I1 _ _ _ Hin0) as [Hs _].
             by assert (s = scanner) as -> by congruence.
      + split.
        * intros k s its Hin. destruct (I1 _ _ _ Hin) as [? Hits].
          split; [done|]. intros x Hx. destruct (Hits x Hx). split; [|done].
          apply elem_of_app. by left.
        * intros x k s [Hx | Hx]%elem_of_app Hxown; [by apply I2|].
          apply list_elem_of_singleton in Hx. subst x. congruence. }
  apply (Hfold items [] []). split.
  - intros i s its H. by apply elem_of_nil in H.
  - intros item i s H. by apply elem_of_nil in H.
Qed.

(** ** The orchestrator: cleanup *)

Lemma dispatch_run items_by_scanner result w :
  ∃ result' w',
    ScannerManager.dispatch items_by_scanner result w = (Return result', w')
    ∧ CleanupResult.removed_items result'
      = CleanupResult.removed_items result
          ++ credited_items (cleanup_calls items_by_scanner w)
    ∧ CleanupResult.failed_items result'
      = CleanupResult.failed_items result
          ++ recorded_failures (cleanup_calls items_by_scanner w)
    ∧ CleanupResult.errors result'
      = CleanupResult.errors result
          ++ cleanup_errors (cleanup_calls items_by_scanner w).
Proof.
  revert result w.
  induction items_by_scanner as [|[[i scanner] scanner_items] rest IH];
    intros result w.
  - exists result, w. simpl. by rewrite !app_nil_r.
  - simpl. unfold mbind at 1, M_bind at 1, try_except.
    unfold mbind at 1, M_bind at 1.
    destruct (Scanner.cleanup scanner scanner_items w) as [[removed_paths|e] w1].
    + destruct (IH (ScannerManager.credit result scanner scanner_items removed_paths) w1)
        as (result' & w' & Hrun & Hrem & Hfail & Herr).
      exists result', w'. simpl. rewrite Hrun, Hrem, Hfail, Herr. simpl.
      by rewrite <- !app_assoc.
    + destruct (IH (ScannerManager.append_cleanup_error result
                      (ScannerManager.cleanup_error_msg scanner e)) w1)
        as (result' & w' & Hrun & Hrem & Hfail & Herr).
      exists result', w'. simpl. rewrite Hrun, Hrem, Hfail, Herr. simpl.
      by rewrite <- !app_assoc.
Qed.

Lemma cleanup_run self items w :
  logger_returns (ScannerManager.audit_logger self) →
  ∃ report w',
    ScannerManager.cleanup self items false w = (Return report, w')
    ∧ CleanupResult.removed_items report
      = credited_items (dispatches_of self items w)
    ∧ CleanupResult.failed_items report
      = recorded_failures (dispatches_of self items w)
    ∧ CleanupResult.errors report = cleanup_errors (dispatches_of self items w)
    ∧ CleanupResult.total_removed report
      = length (CleanupResult.removed_items report)
    ∧ CleanupResult.total_freed report
      = sum_sizes (CleanupResult.removed_items report).
Proof.
  intros [_ Hlog]. unfold ScannerManager.cleanup, dispatches_of.
  unfold mbind at 1, M_bind at 1, time_time, datetime_now.
  unfold mbind at 1, M_bind at 1, ScannerManager._generate_id.
  unfold mbind at 1, M_bind at 1.
  unfold mbind at 1, M_bind at 1.
  fold (after_header w).
  match goal with
  | |- context [ScannerManager.dispatch ?g ?r ?w0] =>
      destruct (dispatch_run g r w0) as (result & w1 & -> & Hrem & Hfail & Herr)
  end.
  simpl in Hrem, Hfail, Herr.
  unfold_M.
  match goal with
  | |- context [AuditLogger.log_cleanup ?l ?r ?w0] =>
      destruct (Hlog r w0) as [w2 ->]
  end.
  eexists _, _. split; [reflexivity|]. simpl. by rewrite Hrem, Hfail, Herr.
Qed.

Lemma cleanup_calls_groups items_by_scanner w :
  (cleanup_calls items_by_scanner w).*1 = items_by_scanner.
Proof.
  revert w.
  induction items_by_scanner as [|[[i s] its] rest IH]; intros w; [done|].
  simpl. destruct (Scanner.cleanup s its w) as [o w']. simpl. by rewrite IH.
Qed.

Lemma cleanup_calls_elem items_by_scanner w i s its :
  (i, s, its) ∈ items_by_scanner ↔
  ∃ o, (i, s, its, o) ∈ cleanup_calls items_by_scanner w.
Proof.
  rewrite <- (cleanup_calls_groups items_by_scanner w) at 1.
  rewrite list_elem_of_fmap. split.
  - intros [[g o] [-> Hin]]. by exists o.
  - intros [o Hin]. by exists (i, s, its, o).
Qed.

Lemma elem_of_credited_items calls item :
  item ∈ credited_items calls ↔
  ∃ i s its removed_paths,
    (i, s, its, Return removed_paths) ∈ calls
    ∧ item ∈ its ∧ WasteItem.path item ∈ removed_paths.
Proof.
  unfold credited_items. rewrite list_elem_of_bind. split.
  - intros [[[[i s] its] [rp|e]] [Hin Hcall]].
    + apply list_elem_of_filter in Hin as [Hret Hin].
      exists i, s, its, rp. done.
    + by apply elem_of_nil in Hin.
  - intros (i & s & its & rp & Hcall & Hin & Hret).
    exists (i, s, its, Return rp). split; [|done].
    by apply list_elem_of_filter.
Qed.

Lemma elem_of_recorded_failures calls i s its removed_paths item :
  (i, s, its, Return removed_paths) ∈ calls →
  item ∈ its →
  WasteItem.path item ∉ removed_paths →
  ScannerManager.failure s item ∈ recorded_failures calls.
Proof.
  intros Hcall Hin Hret. unfold recorded_failures. apply list_elem_of_bind.
  exists (i, s, its, Return removed_paths). split; [|done].
  apply list_elem_of_fmap. exists item. split; [done|].
  by apply list_elem_of_filter.
Qed.

Lemma group_items_snoc scanners items item :
  ScannerManager.group_items scanners (items ++ [item])
  = match ScannerManager.owner scanners (WasteItem.category item) with
    | Some (i, scanner) =>
        ScannerManager.dict_append (ScannerManager.group_items scanners items)
          i scanner item
    | None => ScannerManager.group_items scanners items
    end.
Proof. unfold ScannerManager.group_items. by rewrite foldl_snoc. Qed.

(** Induction over the grouping loop. *)
Lemma group_items_ind scanners
    (Q : list WasteItem.t → list (nat * Scanner.t * list WasteItem.t) → Prop) :
  Q [] [] →
  (∀ seen d item i scanner,
     Q seen d →
     ScannerManager.owner scanners (WasteItem.category item) = Some (i, scanner) →
     Q (seen ++ [item]) (ScannerManager.dict_append d i scanner item)) →
  (∀ seen d item,
     Q seen d →
     ScannerManager.owner scanners (WasteItem.category item) = None →
     Q (seen ++ [item]) d) →
  ∀ items, Q items (ScannerManager.group_items scanners items).
Proof.
  intros Hnil Hsome Hnone items.
  induction items as [|item items IH] using rev_ind; [done|].
  rewrite group_items_snoc.
  destruct (ScannerManager.owner scanners (WasteItem.category item))
    as [[i scanner]|] eqn:Hown; [by apply Hsome | by apply Hnone].
Qed.

Lemma dict_append_keys d i scanner item :
  (ScannerManager.dict_append d i scanner item).*1.*1
  = if decide (i ∈ d.*1.*1) then d.*1.*1 else d.*1.*1 ++ [i].
Proof.
  induction d as [|[[k s] its] d IH].
  - done.
  - change (((k, s, its) :: d).*1.*1) with (k :: d.*1.*1).
    simpl ScannerManager.dict_append. case_bool_decide as Hk.
    + subst. change (((i, s, its ++ [item]) :: d).*1.*1) with (i :: d.*1.*1).
      rewrite decide_True; [done | left].
    + change (((k, s, its) :: ScannerManager.dict_append d i scanner item).*1.*1)
        with (k :: (ScannerManager.dict_append d i scanner item).*1.*1).
      rewrite IH. destruct (decide (i ∈ d.*1.*1)) as [Hin | Hin].
      * rewrite decide_True; [done | by right].
      * rewrite decide_False; [done|].
        intros [-> | ?]%elem_of_cons; done.
Qed.

Lemma dict_append_join d i scanner item :
  mjoin (ScannerManager.dict_append d i scanner item).*2
  ≡ₚ mjoin d.*2 ++ [item].
Proof.
  induction d as [|[[k s] its] d IH]; simpl; [done|].
  case_bool_decide; simpl.
  - rewrite <- !app_assoc. f_equiv. apply Permutation_app_comm.
  - rewrite IH. by rewrite app_assoc.
Qed.

Lemma group_items_keys_NoDup scanners items :
  NoDup (ScannerManager.group_items scanners items).*1.*1.
Proof.
  apply (group_items_ind scanners (λ _ d, NoDup d.*1.*1)).
  - constructor.
  - intros _ d item i scanner Hd _. rewrite dict_append_keys.
    destruct (decide (i ∈ d.*1.*1)); [done|].
    apply NoDup_app. split; [done|]. split; [|apply NoDup_singleton].
    intros x Hx ->%list_elem_of_singleton. done.
  - done.
Qed.

Lemma group_items_nonempty scanners items :
  Forall (λ g, g.2 ≠ []) (ScannerManager.group_items scanners items).
Proof.
  apply (group_items_ind scanners (λ _ d, Forall (λ g, g.2 ≠ []) d)).
  - constructor.
  - intros _ d item i scanner Hd _. apply Forall_forall.
    intros [[k s] its] Hin. simpl.
    apply dict_append_inv in Hin as [Hin | [_ [[_ ->] | (its0 & _ & ->)]]].
    + by apply (proj1 (Forall_forall _ _) Hd _ Hin).
    + done.
    + by destruct its0.
  - done.
Qed.

Lemma group_items_partition scanners items :
  mjoin (ScannerManager.group_items scanners items).*2
  ≡ₚ owned_items scanners items.
Proof.
  apply (group_items_ind scanners
           (λ seen d, mjoin d.*2 ≡ₚ owned_items scanners seen)).
  - done.
  - intros seen d item i scanner Hd Hown. rewrite dict_append_join, Hd.
    unfold owned_items. rewrite filter_app.
    rewrite (filter_cons_True _ item) by (rewrite Hown; eauto). done.
  - intros seen d item Hd Hown. rewrite Hd.
    unfold owned_items. rewrite filter_app.
    rewrite (filter_cons_False _ item) by (rewrite Hown; by intros [? ?]).
    by rewrite filter_nil, app_nil_r.
Qed.

Lemma NoDup_fmap_agree {A B} (f : A → B) (l : list A) x y :
  NoDup (f <$> l) → x ∈ l → y ∈ l → f x = f y → x = y.
Proof.
  induction l as [|a l IH]; intros Hnodup Hx Hy Heq.
  { by apply elem_of_nil in Hx. }
  rewrite fmap_cons in Hnodup. apply NoDup_cons in Hnodup as [Hnot Hnodup].
  apply elem_of_cons in Hx as [-> | Hx]; apply elem_of_cons in Hy as [-> | Hy].
  - done.
  - destruct Hnot. rewrite Heq. apply list_elem_of_fmap. by exists y.
  - destruct Hnot. rewrite <- Heq. apply list_elem_of_fmap. by exists x.
  - by apply IH.
Qed.

Lemma recorded_failures_inv calls f :
  f ∈ recorded_failures calls →
  ∃ i scanner scanner_items removed_paths item,
    (i, scanner, scanner_items, Return removed_paths) ∈ calls
    ∧ item ∈ scanner_items
    ∧ (WasteItem.path item ∉ removed_paths)
    ∧ f = ScannerManager.failure scanner item.
Proof.
  unfold recorded_failures.
  intros ([[[i scanner] its] [removed_paths|e]] & Hf & Hcall)%list_elem_of_bind.
  - apply list_elem_of_fmap in Hf as (item & -> & Hitem).
    apply list_elem_of_filter in Hitem as [Hnot Hitem].
    by exists i, scanner, its, removed_paths, item.
  - by apply elem_of_nil in Hf.
Qed.

(** The items of a batch whose scanner raised are credited by no other
    batch: an item has one owner, and an owner one batch. *)
Lemma raised_batch_not_credited self items w i scanner scanner_items e item :
  (i, scanner, scanner_items, Raise e) ∈ dispatches_of self items w →
  item ∈ scanner_items →
  item ∉ credited_items (dispatches_of self items w).
Proof.
  intros Hcall Hitem.
  intros (i' & s' & its' & removed_paths & Hcall' & Hitem' & _)
           %elem_of_credited_items.
  destruct (group_items_spec (ScannerManager.scanners self) items)
    as [Hsound _].
  assert (∀ j s1 its1 o,
            (j, s1, its1, o) ∈ dispatches_of self items w →
            item ∈ its1 →
            ScannerManager.owner (ScannerManager.scanners self)
              (WasteItem.category item) = Some (j, s1)) as Hown.
  { intros j s1 its1 o Hc Hi.
    assert ((j, s1, its1)
              ∈ ScannerManager.group_items (ScannerManager.scanners self) items)
      as Hgroup.
    { apply (cleanup_calls_elem _ (after_header w)). by exists o. }
    destruct (Hsound _ _ _ Hgroup) as [_ Hits]. by apply Hits. }
  pose proof (Hown _ _ _ _ Hcall Hitem) as H1.
  pose proof (Hown _ _ _ _ Hcall' Hitem') as H2.
  rewrite H1 in H2. injection H2 as <- <-.
  assert (NoDup ((λ call : nat * Scanner.t * list WasteItem.t
                               * outcome (list Path), call.1.1.1)
                   <$> dispatches_of self items w)) as Hnodup.
  { unfold dispatches_of.
    pose proof (group_items_keys_NoDup (ScannerManager.scanners self) items)
      as Hkeys.
    rewrite <- (cleanup_calls_groups _ (after_header w)) in Hkeys.
    by rewrite <- !list_fmap_compose in Hkeys. }
  pose proof (NoDup_fmap_agree _ _ _ _ Hnodup Hcall Hcall' eq_refl) as Heq.
  discriminate Heq.
Qed.

(** C5 (amended). In [cleanup(items, dry_run=False)] every requested item
    that has an owning scanner is handed to that scanner.  When the
    scanner's [cleanup] returns, the item is credited as removed if its
    path is among the returned paths and is otherwise recorded as a
    failure with the reason "Cleanup failed" and the scanner's name.  When
    the scanner's [cleanup] raises, the item is not credited and the
    report's error list has the scanner's message instead.  Only returned
    paths are credited, only paths a scanner did not return are recorded
    as failures, and the freed-bytes total is the sum of the sizes of the
    credited items. *)
Theorem cleanup_credits_returned_paths self items w :
  logger_returns (ScannerManager.audit_logger self) →
  ∃ report w',
    ScannerManager.cleanup self items false w = (Return report, w')
    ∧ (∀ item i scanner,
         item ∈ items →
         ScannerManager.owner (ScannerManager.scanners self)
           (WasteItem.category item) = Some (i, scanner) →
         ∃ scanner_items o,
           (i, scanner, scanner_items, o) ∈ dispatches_of self items w
           ∧ item ∈ scanner_items
           ∧ match o with
             | Return removed_paths =>
                 (WasteItem.path item ∈ removed_paths →
                  item ∈ CleanupResult.removed_items report)
                 ∧ (WasteItem.path item ∉ removed_paths →
                    {| FailedItem.path := str_path (WasteItem.path item);
                       FailedItem.error := "Cleanup failed";
                       FailedItem.scanner := Scanner.name scanner |}
                    ∈ CleanupResult.failed_items report)
             | Raise e =>
                 (item ∉ CleanupResult.removed_items report)
                 ∧ ("Cleanup failed for scanner " +:+ Scanner.name scanner
                      +:+ ": " +:+ exc_str e)
                   ∈ CleanupResult.errors report
             end)
    ∧ (∀ item,
         item ∈ CleanupResult.removed_items report →
         item ∈ items
         ∧ ∃ i scanner scanner_items removed_paths,
             ScannerManager.owner (ScannerManager.scanners self)
               (WasteItem.category item) = Some (i, scanner)
             ∧ (i, scanner, scanner_items, Return removed_paths)
               ∈ dispatches_of self items w
             ∧ item ∈ scanner_items
             ∧ WasteItem.path item ∈ removed_paths)
    ∧ (∀ f,
         f ∈ CleanupResult.failed_items report →
         ∃ i scanner scanner_items removed_paths item,
           (i, scanner, scanner_items, Return removed_paths)
             ∈ dispatches_of self items w
           ∧ item ∈ scanner_items
           ∧ (WasteItem.path item ∉ removed_paths)
           ∧ f = {| FailedItem.path := str_path (WasteItem.path item);
                    FailedItem.error := "Cleanup failed";
                    FailedItem.scanner := Scanner.name scanner |})
    ∧ CleanupResult.total_removed report
      = length (CleanupResult.removed_items report)
    ∧ CleanupResult.total_freed report
      = foldr Z.add 0%Z (WasteItem.size <$> CleanupResult.removed_items report).
Proof.
  intros Hlog.
  destruct (cleanup_run self items w Hlog)
    as (report & w' & Hrun & Hrem & Hfail & Herr & Hcount & Hfreed).
  exists report, w'. split; [done|].
  destruct (group_items_spec (ScannerManager.scanners self) items)
    as [Hsound Hcomplete].
  split; [|split; [|split; [|split]]].
  - intros item i scanner Hin Hown.
    destruct (Hcomplete item i scanner Hin Hown) as (its & Hgroup & Hitem).
    apply (cleanup_calls_elem _ (after_header w)) in Hgroup as [o Hcall].
    exists its, o. split; [done|]. split; [done|].
    destruct o as [removed_paths|e].
    + split.
      * intros Hret. rewrite Hrem. apply elem_of_credited_items.
        by exists i, scanner, its, removed_paths.
      * intros Hret. rewrite Hfail.
        by apply (elem_of_recorded_failures _ i scanner its removed_paths).
    + split.
      * rewrite Hrem. by apply (raised_batch_not_credited _ _ _ i scanner its e).
      * rewrite Herr. unfold cleanup_errors. apply list_elem_of_bind.
        exists (i, scanner, its, Raise e). split; [|done].
        apply list_elem_of_singleton. reflexivity.
  - intros item Hin. rewrite Hrem in Hin.
    apply elem_of_credited_items in Hin
      as (i & s & its & removed_paths & Hcall & Hitem & Hret).
    assert ((i, s, its) ∈ ScannerManager.group_items
              (ScannerManager.scanners self) items) as Hgroup.
    { apply (cleanup_calls_elem _ (after_header w)). by eexists. }
    destruct (Hsound _ _ _ Hgroup) as [_ Hits].
    destruct (Hits item Hitem) as [Hreq Hown].
    split; [done|]. by exists i, s, its, removed_paths.
  - intros f Hf. rewrite Hfail in Hf. by apply recorded_failures_inv.
  - done.
  - by rewrite Hfreed, sum_sizes_spec.
Qed.

(** The same call, evaluated: a.tmp is credited, held.tmp is a failure. *)
Lemma cleanup_sample_run :
  match (ScannerManager.cleanup three_scanners [a_tmp; held_tmp] false
           (sample_world hundred_days)).1 with
  | Return report =>
      CleanupResult.removed_items report = [a_tmp]
      ∧ CleanupResult.failed_items report
        = [ {| FailedItem.path := "/tmp/held.tmp";
               FailedItem.error := "Cleanup failed";
               FailedItem.scanner := "SystemTempScanner" |} ]
      ∧ CleanupResult.total_freed report = 10240%Z
  | Raise _ => False
  end.
Proof. vm_compute. done. Qed.

(** The three sample scanners asked to clean /tmp/a.tmp and the held-open
    /tmp/held.tmp: 10240 bytes are freed. *)
Lemma cleanup_credits_returned_paths_witness :
  ∃ report w',
    ScannerManager.cleanup three_scanners [a_tmp; held_tmp] false
      (sample_world hundred_days) = (Return report, w')
    ∧ CleanupResult.removed_items report = [a_tmp]
    ∧ CleanupResult.total_freed report = 10240%Z.
Proof.
  destruct (cleanup_credits_returned_paths three_scanners [a_tmp; held_tmp]
              (sample_world hundred_days))
    as (report & w' & Hrun & _ & _ & _ & _ & Hfreed).
  - vm_compute. split; intros r w; eexists; reflexivity.
  - pose proof cleanup_sample_run as Hsample. rewrite Hrun in Hsample.
    destruct Hsample as (Hremoved & _ & _).
    exists report, w'. split; [exact Hrun|]. split; [exact Hremoved|].
    rewrite Hfreed, Hremoved. reflexivity.
Defined.

(** C5, as stated, fails.  The item handed to a scanner whose [cleanup]
    raises is not among the returned paths, and no failure is recorded for
    it; and where a failure is recorded, its reason reads "Cleanup failed",
    not "cleanup failed". *)
Lemma cleanup_failure_not_as_stated :
  match (ScannerManager.cleanup broken_in_the_middle [a_tmp; stray_file] false
           (sample_world hundred_days)).1 with
  | Return report =>
      Scanner.name <$>
        (snd <$> ScannerManager.owner (ScannerManager.scanners broken_in_the_middle)
                   (WasteItem.category stray_file))
      = Some "BrokenScanner"
      ∧ CleanupResult.removed_items report = [a_tmp]
      ∧ CleanupResult.failed_items report = []
      ∧ CleanupResult.errors report
        = ["Cleanup failed for scanner BrokenScanner: boom"]
  | Raise _ => False
  end
  ∧ match (ScannerManager.cleanup three_scanners [a_tmp; held_tmp] false
             (sample_world hundred_days)).1 with
    | Return report =>
        {| FailedItem.path := "/tmp/held.tmp";
           FailedItem.error := "cleanup failed";
           FailedItem.scanner := "SystemTempScanner" |}
        ∉ CleanupResult.failed_items report
    | Raise _ => False
    end.
Proof.
  split; [vm_compute; done|].
  pose proof cleanup_sample_run as Hsample.
  destruct (ScannerManager.cleanup three_scanners [a_tmp; held_tmp] false
              (sample_world hundred_days)).1 as [report|e]; [|done].
  destruct Hsample as (_ & -> & _).
  intros [[=] | Hin%elem_of_nil]%elem_of_cons. done.
Qed.

(** Items without an owning scanner leave no trace in the grouping. *)
Lemma group_items_drops_unowned scanners items :
  ScannerManager.group_items scanners items
  = ScannerManager.group_items scanners
      (filter (λ item, is_Some (ScannerManager.owner scanners
                                  (WasteItem.category item))) items).
Proof.
  unfold ScannerManager.group_items. generalize (@nil (nat * Scanner.t * list WasteItem.t)).
  induction items as [|item items IH]; intros d; [done|].
  rewrite filter_cons. simpl.
  destruct (ScannerManager.owner scanners (WasteItem.category item))
    as [[i s]|] eqn:Hown.
  - rewrite decide_True by eauto. simpl. rewrite Hown. apply IH.
  - rewrite decide_False by (by intros [? ?]). apply IH.
Qed.

(** C1 (the code at an item nobody owns).  With the scanners the server
    registers, no scanner declares the category BROWSER_COOKIES.  Asked to
    clean the cookie database and /tmp/a.tmp, [cleanup] credits a.tmp and
    says nothing of the cookie database: it is in neither list of the
    report, and it is still on disk. *)
Theorem cleanup_drops_unowned_items :
  match _register_scanners glob_fnmatch temp_found logs_found chrome_found Stop
          (ScannerManager.__init__ AuditLogger.recording)
          (sample_world hundred_days) with
  | (Return manager, w) =>
      ScannerManager.owner (ScannerManager.scanners manager) BROWSER_COOKIES = None
      ∧ match ScannerManager.cleanup manager [cookies; a_tmp] false w with
        | (Return report, w') =>
            CleanupResult.removed_items report = [a_tmp]
            ∧ CleanupResult.failed_items report = []
            ∧ CleanupResult.errors report = []
            ∧ fs w' !! ["home"; "Cookies"] = Some (mkNode RegularFile None)
        | (Raise _, _) => False
        end
  | (Raise _, _) => False
  end.
Proof. vm_compute. done. Qed.

(** ** The orchestrator: what registration guarantees *)

(** C10. Registration takes a scanner only if it is supported on the
    current platform and otherwise leaves the manager as it was.  Hence,
    for a manager filled through registration, every entry of
    [get_scanner_info] has its [supported] flag set, and every call that
    [scan_system] or [cleanup] makes goes to a supported scanner. *)
Theorem registration_takes_supported_only self :
  registered self →
  (∀ scanner, Scanner.is_supported scanner = false →
              ScannerManager.register_scanner self scanner = self)
  ∧ (∀ scanner_class w self' w',
       ScannerManager.register_scanner_class self scanner_class w
         = (Return self', w') →
       registered self')
  ∧ (∀ info, info ∈ ScannerManager.get_scanner_info self →
             ScannerInfo.supported info = true)
  ∧ (∀ scanner_names w scanner o,
       (scanner, o) ∈ scans_of self scanner_names w →
       Scanner.is_supported scanner = true)
  ∧ (∀ items w i scanner scanner_items o,
       (i, scanner, scanner_items, o) ∈ dispatches_of self items w →
       Scanner.is_supported scanner = true).
Proof.
  intros Hreg. pose proof (registered_supported self Hreg) as Hsup.
  split; [|split; [|split; [|split]]].
  - intros scanner Hno. unfold ScannerManager.register_scanner. by rewrite Hno.
  - intros scanner_class w self' w'.
    unfold ScannerManager.register_scanner_class. unfold_M.
    destruct (scanner_class w) as [[scanner|e] w1]; [|done].
    intros [= <- _]. by constructor.
  - intros info Hin. unfold ScannerManager.get_scanner_info in Hin.
    apply list_elem_of_fmap in Hin as (scanner & -> & Hin). simpl. by apply Hsup.
  - intros scanner_names w scanner o Hin. unfold scans_of in Hin.
    assert (scanner ∈ ScannerManager._filter_scanners self scanner_names) as Hsel.
    { rewrite <- (scan_calls_scanners _ (after_header w)).
      apply list_elem_of_fmap. by exists (scanner, o). }
    apply filter_scanners_subset in Hsel as [Hsel _]. by apply Hsup.
  - intros items w i scanner scanner_items o Hin. unfold dispatches_of in Hin.
    assert ((i, scanner, scanner_items)
              ∈ ScannerManager.group_items (ScannerManager.scanners self) items)
      as Hgroup.
    { apply (cleanup_calls_elem _ (after_header w)). by exists o. }
    destruct (group_items_spec (ScannerManager.scanners self) items) as [Hsound _].
    destruct (Hsound _ _ _ Hgroup) as [Hi _].
    apply Hsup. by apply list_elem_of_lookup_2 in Hi.
Qed.

(** A Windows-only scanner offered on the Linux machine is skipped; the
    three registered scanners all report themselves supported. *)
Lemma registration_takes_supported_only_witness :
  ScannerManager.register_scanner three_scanners
    (BaseScanner.obj glob_fnmatch
       (linux_self (ScannerClass.mk "RecycleBinScanner" [WINDOWS] RECYCLE_BIN
                      "Recycle bin" Stop)))
  = three_scanners
  ∧ Forall (λ info, ScannerInfo.supported info = true)
      (ScannerManager.get_scanner_info three_scanners).
Proof.
  assert (registered three_scanners) as Hreg.
  { unfold three_scanners. simpl. repeat apply registered_step. constructor. }
  split.
  - apply (proj1 (registration_takes_supported_only three_scanners Hreg)).
    vm_compute. reflexivity.
  - apply Forall_forall.
    apply (proj1 (proj2 (proj2
             (registration_takes_supported_only three_scanners Hreg)))).
Defined.

(** ** The orchestrator: scanning *)

Lemma scan_loop_returns fnmatch self g items w :
  ∃ found w', BaseScanner.scan_loop fnmatch self g items w = (Return found, w').
Proof.
  revert items w. induction g as [|item rest IH|e]; intros items w; simpl.
  - by eexists _, _.
  - rewrite should_include_run.
    destruct (too_recent _ _ _); [apply IH | by eexists _, _].
  - by eexists _, _.
Qed.

(** [BaseScanner.scan] never raises. *)
Lemma base_scan_returns fnmatch self w :
  ∃ found w', BaseScanner.scan fnmatch self w = (Return found, w').
Proof.
  unfold BaseScanner.scan.
  destruct (negb (BaseScanner.is_supported self)); [by eexists _, _|].
  destruct (negb (ScannerConfig.enabled _)); [by eexists _, _|].
  apply scan_loop_returns.
Qed.

Lemma scan_loop_discovery_raises fnmatch self1 self2 found e items w :
  BaseScanner.config self1 = BaseScanner.config self2 →
  BaseScanner.scan_loop fnmatch self1 (yields_then_raises found e) items w
  = BaseScanner.scan_loop fnmatch self2 (yields found) items w.
Proof.
  intros Hconfig. revert items w.
  induction found as [|item found IH]; intros items w; [done|].
  simpl. rewrite !should_include_run.
  unfold too_recent, passes_other_gates. rewrite Hconfig.
  destruct (match WasteItem.last_modified item with
            | Some _ => _ | None => _ end); [apply IH | done].
Qed.

(** A discovery that raises after yielding [found] leaves [scan] with what
    it would have had if the discovery had stopped there. *)
Lemma base_scan_discovery_raises fnmatch self found e w :
  BaseScanner.scan fnmatch (with_discovery self (yields_then_raises found e)) w
  = BaseScanner.scan fnmatch (with_discovery self (yields found)) w.
Proof.
  unfold BaseScanner.scan. simpl.
  change (BaseScanner.is_supported (with_discovery self _))
    with (BaseScanner.is_supported self).
  destruct (negb (BaseScanner.is_supported self)); [done|].
  destruct (negb (ScannerConfig.enabled _)); [done|].
  by apply scan_loop_discovery_raises.
Qed.

Lemma run_scanners_run scanners_to_run result w :
  ∃ result' w',
    ScannerManager.run_scanners scanners_to_run result w = (Return result', w')
    ∧ ScanResult.items result'
      = ScanResult.items result ++ returned_items (scan_calls scanners_to_run w)
    ∧ ScanResult.errors result'
      = ScanResult.errors result ++ raised_errors (scan_calls scanners_to_run w)
    ∧ ScanResult.platform result' = ScanResult.platform result.
Proof.
  revert result w.
  induction scanners_to_run as [|scanner rest IH]; intros result w.
  - exists result, w. simpl. by rewrite !app_nil_r.
  - simpl. unfold mbind at 1, M_bind at 1, try_except.
    unfold mbind at 1, M_bind at 1.
    destruct (Scanner.scan scanner w) as [[found|e] w1].
    + destruct (IH (ScannerManager.extend_items result found) w1)
        as (result' & w' & Hrun & Hitems & Herrors & Hplatform).
      exists result', w'. simpl. rewrite Hrun, Hitems, Herrors, Hplatform. simpl.
      by rewrite <- !app_assoc.
    + destruct (IH (ScannerManager.append_error result
                      (ScannerManager.scan_error_msg scanner e)) w1)
        as (result' & w' & Hrun & Hitems & Herrors & Hplatform).
      exists result', w'. simpl. rewrite Hrun, Hitems, Herrors, Hplatform. simpl.
      by rewrite <- !app_assoc.
Qed.

Lemma detect_platform_run w w0 p :
  detects w p → system w0 = system w →
  ScannerManager._detect_platform w0 = (Return p, w0).
Proof.
  unfold detects, ScannerManager._detect_platform. unfold_M.
  intros H ->. repeat case_bool_decide; simpl in *; congruence.
Qed.

Lemma scan_system_run self scanner_names w p :
  detects w p →
  logger_returns (ScannerManager.audit_logger self) →
  ∃ report w',
    ScannerManager.scan_system self scanner_names w = (Return report, w')
    ∧ ScanResult.items report = returned_items (scans_of self scanner_names w)
    ∧ ScanResult.errors report = raised_errors (scans_of self scanner_names w)
    ∧ ScanResult.total_found report = length (ScanResult.items report)
    ∧ ScanResult.total_size report = sum_sizes (ScanResult.items report)
    ∧ ScanResult.platform report = p.
Proof.
  intros Hdet [Hlog _]. unfold ScannerManager.scan_system, scans_of.
  unfold mbind at 1, M_bind at 1, time_time, datetime_now.
  unfold mbind at 1, M_bind at 1, ScannerManager._generate_id.
  unfold mbind at 1, M_bind at 1.
  rewrite (detect_platform_run w (tick (tick w)) p Hdet eq_refl).
  unfold mbind at 1, M_bind at 1.
  unfold mbind at 1, M_bind at 1.
  fold (after_header w).
  match goal with
  | |- context [ScannerManager.run_scanners ?l ?r ?w0] =>
      destruct (run_scanners_run l r w0)
        as (result & w1 & -> & Hitems & Herrors & Hplatform)
  end.
  simpl in Hitems, Herrors, Hplatform.
  unfold_M.
  match goal with
  | |- context [AuditLogger.log_scan ?l ?r ?w0] =>
      destruct (Hlog r w0) as [w2 ->]
  end.
  eexists _, _. split; [reflexivity|]. simpl.
  by rewrite Hitems, Herrors, Hplatform.
Qed.

Lemma filter_all_enabled (l : list Scanner.t) :
  Forall ScannerManager.is_enabled l → filter ScannerManager.is_enabled l = l.
Proof.
  induction 1 as [|s l Hs _ IH]; [done|].
  rewrite filter_cons, decide_True by done. by rewrite IH.
Qed.

(** C2 (amended).  [scan_system] calls every selected scanner in turn; the
    report holds the candidates of the calls that returned and one error
    entry for each call that raised, so a scanner whose [scan] raises adds
    one entry and no candidate and stops nobody else.  A [BaseScanner]'s
    [scan], however, catches an error of its discovery itself: with three
    enabled scanners of which the middle one's discovery raises after
    yielding [found], the report holds the candidates of the other two and
    those the middle one let through among [found], and its error list is
    empty. *)
Theorem scan_isolation :
  (∀ self scanner_names w p,
     detects w p →
     logger_returns (ScannerManager.audit_logger self) →
     ∃ report w',
       ScannerManager.scan_system self scanner_names w = (Return report, w')
       ∧ (scans_of self scanner_names w).*1
         = ScannerManager._filter_scanners self scanner_names
       ∧ ScanResult.items report = returned_items (scans_of self scanner_names w)
       ∧ ScanResult.errors report = raised_errors (scans_of self scanner_names w))
  ∧ (∀ fnmatch logger first middle last found e w p,
       detects w p →
       logger_returns logger →
       ScannerConfig.enabled (BaseScanner.config first) = true →
       ScannerConfig.enabled (BaseScanner.config middle) = true →
       ScannerConfig.enabled (BaseScanner.config last) = true →
       ∃ found1 found2 found3 w1 w2 w3 report w',
         BaseScanner.scan fnmatch first (after_header w) = (Return found1, w1)
         ∧ BaseScanner.scan fnmatch (with_discovery middle (yields found)) w1
           = (Return found2, w2)
         ∧ BaseScanner.scan fnmatch last w2 = (Return found3, w3)
         ∧ ScannerManager.scan_system
             (ScannerManager.mk
                [ BaseScanner.obj fnmatch first;
                  BaseScanner.obj fnmatch
                    (with_discovery middle (yields_then_raises found e));
                  BaseScanner.obj fnmatch last ]
                logger)
             None w
           = (Return report, w')
         ∧ ScanResult.items report = found1 ++ found2 ++ found3
         ∧ ScanResult.errors report = []).
Proof.
  split.
  - intros self scanner_names w p Hdet Hlog.
    destruct (scan_system_run self scanner_names w p Hdet Hlog)
      as (report & w' & Hrun & Hitems & Herrors & _).
    exists report, w'. split; [done|]. split; [|done].
    apply scan_calls_scanners.
  - intros fnmatch logger first middle last found e w p Hdet Hlog H1 H2 H3.
    set (self := ScannerManager.mk _ logger).
    destruct (scan_system_run self None w p Hdet Hlog)
      as (report & w' & Hrun & Hitems & Herrors & _).
    destruct (base_scan_returns fnmatch first (after_header w))
      as (found1 & w1 & Hscan1).
    destruct (base_scan_returns fnmatch (with_discovery middle (yields found)) w1)
      as (found2 & w2 & Hscan2).
    destruct (base_scan_returns fnmatch last w2) as (found3 & w3 & Hscan3).
    exists found1, found2, found3, w1, w2, w3, report, w'.
    split; [done|]. split; [done|]. split; [done|]. split; [exact Hrun|].
    assert (scans_of self None w
            = [ (BaseScanner.obj fnmatch first, Return found1);
                (BaseScanner.obj fnmatch
                   (with_discovery middle (yields_then_raises found e)),
                 Return found2);
                (BaseScanner.obj fnmatch last, Return found3) ]) as Hcalls.
    { unfold scans_of, self, ScannerManager._filter_scanners. simpl.
      rewrite filter_all_enabled by (repeat constructor; done).
      simpl. rewrite Hscan1. rewrite base_scan_discovery_raises, Hscan2.
      by rewrite Hscan3. }
    rewrite Hitems, Herrors, Hcalls. simpl. by rewrite app_nil_r.
Qed.

(** C2, as stated, fails: with the three sample scanners, of which the log
    sweep raises during discovery after its first find, the report carries
    no error entry at all, and it carries the log the sweep had found. *)
Lemma scan_system_discovery_error_not_recorded :
  match (ScannerManager.scan_system three_scanners None
           (sample_world hundred_days)).1 with
  | Return report =>
      ScanResult.errors report = []
      ∧ length (ScanResult.errors report) ≠ 1
      ∧ ScanResult.items report = [a_tmp; held_tmp; z_log; cache_file; cookies]
  | Raise _ => False
  end.
Proof. vm_compute. repeat split. discriminate. Qed.

(** A scanner whose [scan] itself raises costs one error entry and
    nothing else. *)
Lemma scan_system_broken_scanner :
  match (ScannerManager.scan_system broken_in_the_middle None
           (sample_world hundred_days)).1 with
  | Return report =>
      ScanResult.errors report = ["Scanner BrokenScanner failed: boom"]
      ∧ ScanResult.items report = [a_tmp; held_tmp; cache_file; cookies]
      ∧ ScanResult.total_found report = 4
      ∧ ScanResult.total_size report = 16391%Z
  | Raise _ => False
  end.
Proof. vm_compute. done. Qed.

Lemma scan_isolation_witness :
  (∃ report w',
     ScannerManager.scan_system broken_in_the_middle None
       (sample_world hundred_days) = (Return report, w')
     ∧ ScanResult.errors report
       = raised_errors (scans_of broken_in_the_middle None
                          (sample_world hundred_days)))
  ∧ (∃ found1 found2 found3 w1 w2 w3 report w',
       BaseScanner.scan glob_fnmatch (linux_self (SystemTempScanner temp_found))
         (after_header (sample_world hundred_days)) = (Return found1, w1)
       ∧ BaseScanner.scan glob_fnmatch
           (with_discovery (linux_self (SystemLogsScanner Stop)) (yields [z_log])) w1
         = (Return found2, w2)
       ∧ BaseScanner.scan glob_fnmatch (linux_self (ChromeScanner chrome_found)) w2
         = (Return found3, w3)
       ∧ ScannerManager.scan_system
           (ScannerManager.mk
              [ BaseScanner.obj glob_fnmatch (linux_self (SystemTempScanner temp_found));
                BaseScanner.obj glob_fnmatch
                  (with_discovery (linux_self (SystemLogsScanner Stop))
                     (yields_then_raises [z_log] walk_failed));
                BaseScanner.obj glob_fnmatch (linux_self (ChromeScanner chrome_found)) ]
              AuditLogger.recording)
           None (sample_world hundred_days)
         = (Return report, w')
       ∧ ScanResult.items report = found1 ++ found2 ++ found3
       ∧ ScanResult.errors report = []).
Proof.
  split.
  - destruct (proj1 scan_isolation broken_in_the_middle None
                (sample_world hundred_days) LINUX)
      as (report & w' & Hrun & _ & _ & Herrors).
    + vm_compute. reflexivity.
    + vm_compute. split; intros r w; eexists; reflexivity.
    + exists report, w'. split; [exact Hrun | exact Herrors].
  - apply (proj2 scan_isolation glob_fnmatch AuditLogger.recording
             (linux_self (SystemTempScanner temp_found))
             (linux_self (SystemLogsScanner Stop))
             (linux_self (ChromeScanner chrome_found))
             [z_log] walk_failed (sample_world hundred_days) LINUX).
    + vm_compute. reflexivity.
    + vm_compute. split; intros r w; eexists; reflexivity.
    + reflexivity.
    + reflexivity.
    + reflexivity.
Defined.

(* ================================================================== *)
(** * Part III. Further properties of the code *)
(* ================================================================== *)

(** ** The gates of [_should_include] *)

(** The size gate never lets through a candidate larger than a non-zero
    [max_file_size]: the verdict is [False], unless the age gate, which
    runs before it, raises.  A candidate of at most that size, and every
    candidate when the limit is 0, is judged as if no limit were set. *)
Theorem size_gate_bounds fnmatch self item limit w :
  (limit ≠ 0%Z → (WasteItem.size item > limit)%Z →
   (BaseScanner._should_include fnmatch (with_max_file_size self (Some limit))
      item w).1
   = match too_recent self item (clock w (ticks w)) with
     | Return _ => Return false
     | Raise e => Raise e
     end)
  ∧ (limit = 0%Z ∨ (WasteItem.size item ≤ limit)%Z →
     BaseScanner._should_include fnmatch (with_max_file_size self (Some limit))
       item w
     = BaseScanner._should_include fnmatch (with_max_file_size self None) item w).
Proof.
  rewrite !should_include_run.
  change (too_recent (with_max_file_size self (Some limit)) item)
    with (too_recent self item).
  change (too_recent (with_max_file_size self None) item)
    with (too_recent self item).
  unfold passes_other_gates, BaseScanner.exceeds_max_size. simpl.
  split.
  - intros Hne Hgt.
    replace (limit =? 0)%Z with false by (symmetry; by apply Z.eqb_neq).
    replace (WasteItem.size item >? limit)%Z with true
      by (symmetry; apply Z.gtb_lt; lia).
    simpl. destruct (too_recent _ _ _); [|done]. by rewrite andb_false_r.
  - intros Hle.
    replace (negb (limit =? 0)%Z && (WasteItem.size item >? limit)%Z)
      with false; [done|].
    symmetry. destruct Hle as [-> | Hle]; [done|].
    apply andb_false_iff. right.
    destruct (Z.gtb_spec (WasteItem.size item) limit); [lia | done].
Qed.

Lemma size_gate_bounds_witness :
  (BaseScanner._should_include glob_fnmatch
     (with_max_file_size (linux_self (SystemTempScanner Stop)) (Some 10239%Z))
     a_tmp (sample_world hundred_days)).1 = Return false
  ∧ BaseScanner._should_include glob_fnmatch
      (with_max_file_size (linux_self (SystemTempScanner Stop)) (Some 0%Z))
      a_tmp (sample_world hundred_days)
    = BaseScanner._should_include glob_fnmatch
        (with_max_file_size (linux_self (SystemTempScanner Stop)) None)
        a_tmp (sample_world hundred_days).
Proof.
  split.
  - rewrite (proj1 (size_gate_bounds glob_fnmatch
                      (linux_self (SystemTempScanner Stop))
                      a_tmp 10239%Z (sample_world hundred_days))).
    + vm_compute. reflexivity.
    + discriminate.
    + vm_compute. reflexivity.
  - apply (proj2 (size_gate_bounds glob_fnmatch (linux_self (SystemTempScanner Stop))
                    a_tmp 0%Z (sample_world hundred_days))).
    left. reflexivity.
Defined.

Lemma matches_any_false fnmatch patterns item :
  Forall (λ pattern, fnmatch (str_path (WasteItem.path item)) pattern = false)
    patterns →
  BaseScanner.matches_any fnmatch patterns item = false.
Proof.
  unfold BaseScanner.matches_any.
  induction 1 as [|pattern patterns Hp _ IH]; [done|].
  simpl. by rewrite Hp, IH.
Qed.

(** A non-empty inclusion list is an allow-list: a candidate whose path
    matches none of its patterns is never accepted (the verdict is [False],
    unless the age gate raises).  With an empty inclusion list, a
    candidate that the age gate lets pass, that is not too large and not
    excluded is accepted. *)
Theorem inclusion_allow_list fnmatch self item w :
  (ScannerConfig.include_patterns (BaseScanner.config self) ≠ [] →
   Forall (λ pattern, fnmatch (str_path (WasteItem.path item)) pattern = false)
     (ScannerConfig.include_patterns (BaseScanner.config self)) →
   (BaseScanner._should_include fnmatch self item w).1
   = match too_recent self item (clock w (ticks w)) with
     | Return _ => Return false
     | Raise e => Raise e
     end)
  ∧ (ScannerConfig.include_patterns (BaseScanner.config self) = [] →
     too_recent self item (clock w (ticks w)) = Return false →
     BaseScanner.exceeds_max_size (BaseScanner.config self) item = false →
     Forall (λ pattern, fnmatch (str_path (WasteItem.path item)) pattern = false)
       (ScannerConfig.exclude_patterns (BaseScanner.config self)) →
     (BaseScanner._should_include fnmatch self item w).1 = Return true).
Proof.
  rewrite should_include_run. unfold passes_other_gates. simpl. split.
  - intros Hne Hnone.
    destruct (ScannerConfig.include_patterns (BaseScanner.config self))
      as [|pattern patterns] eqn:Hinc; [done|].
    apply Forall_cons in Hnone as [Hp Hps].
    destruct (too_recent _ _ _); [|done].
    rewrite Hp, (matches_any_false _ _ _ Hps). by rewrite !andb_false_r.
  - intros -> -> -> Hexcl. by rewrite (matches_any_false _ _ _ Hexcl).
Qed.

Lemma inclusion_allow_list_witness :
  (BaseScanner._should_include glob_fnmatch guarded_self cookies
     (sample_world hundred_days)).1 = Return false
  ∧ (BaseScanner._should_include glob_fnmatch (linux_self (SystemTempScanner Stop))
       cookies (sample_world hundred_days)).1 = Return true.
Proof.
  split.
  - rewrite (proj1 (inclusion_allow_list glob_fnmatch guarded_self cookies
                      (sample_world hundred_days))).
    + vm_compute. reflexivity.
    + discriminate.
    + vm_compute. repeat constructor.
  - apply (proj2 (inclusion_allow_list glob_fnmatch
                    (linux_self (SystemTempScanner Stop)) cookies
                    (sample_world hundred_days))).
    + reflexivity.
    + vm_compute. reflexivity.
    + reflexivity.
    + vm_compute. constructor.
Defined.

(** Time only works in a candidate's favour.  With a [min_file_age_days]
    that is not negative, a candidate accepted at one reading of the clock
    is accepted at every later reading that is a [datetime], the
    configuration being the same. *)
Theorem should_include_monotone fnmatch self item w1 w2 :
  (0 ≤ ScannerConfig.min_file_age_days (BaseScanner.config self))%Z →
  (clock w1 (ticks w1) ≤ clock w2 (ticks w2) ≤ datetime_max)%Z →
  (BaseScanner._should_include fnmatch self item w1).1 = Return true →
  (BaseScanner._should_include fnmatch self item w2).1 = Return true.
Proof.
  rewrite !should_include_run. simpl. intros Hdays [Hle Hmax].
  unfold too_recent.
  destruct (WasteItem.last_modified item) as [lm|]; [|done].
  unfold mbind, outcome_bind.
  destruct (timedelta _) as [delta|e] eqn:Hdelta; [|done].
  assert (0 ≤ delta)%Z as Hpos.
  { unfold timedelta in Hdelta. repeat case_bool_decide; simplify_eq. lia. }
  unfold datetime_sub.
  case_bool_decide as H1; [|done].
  rewrite bool_decide_eq_true_2 by lia.
  destruct lm as [t|t offset]; simpl; [|done].
  intros [= H]. f_equal.
  apply andb_true_iff in H as [Hage ->]. rewrite andb_true_r.
  apply negb_true_iff in Hage. apply negb_true_iff.
  destruct (Z.gtb_spec t (clock w1 (ticks w1) - delta)); [done|].
  destruct (Z.gtb_spec t (clock w2 (ticks w2) - delta)); [lia | done].
Qed.

Lemma should_include_monotone_witness :
  (BaseScanner._should_include glob_fnmatch (linux_self (SystemTempScanner Stop))
     a_tmp (sample_world (hundred_days + day)%Z)).1 = Return true.
Proof.
  apply (should_include_monotone glob_fnmatch (linux_self (SystemTempScanner Stop))
           a_tmp (sample_world hundred_days) (sample_world (hundred_days + day)%Z)).
  - vm_compute. discriminate.
  - vm_compute. split; discriminate.
  - vm_compute. reflexivity.
Defined.

(** ** [BaseScanner.scan] *)

Lemma scan_loop_run fnmatch self g items w :
  ∃ kept w',
    BaseScanner.scan_loop fnmatch self g items w = (Return (items ++ kept), w')
    ∧ kept `sublist_of` yielded g
    ∧ Forall (λ item, passes_other_gates fnmatch self item = true) kept
    ∧ fs w' = fs w ∧ procs w' = procs w ∧ audit w' = audit w.
Proof.
  revert items w. induction g as [|item rest IH|e]; intros items w; simpl.
  - exists [], w. by rewrite app_nil_r.
  - rewrite should_include_run.
    set (w1 := match WasteItem.last_modified item with
               | Some _ => tick w | None => w end).
    assert (fs w1 = fs w ∧ procs w1 = procs w ∧ audit w1 = audit w)
      as (Hfs & Hprocs & Haudit)
      by (unfold w1; by destruct (WasteItem.last_modified item)).
    destruct (too_recent self item (clock w (ticks w))) as [recent|e].
    2: { exists [], w1. rewrite app_nil_r. split; [done|].
         split; [apply sublist_nil_l|]. by split; [constructor|]. }
    destruct (negb recent && passes_other_gates fnmatch self item) eqn:Hkeep.
    + destruct (IH (items ++ [item]) w1) as (kept & w' & -> & Hsub & Hall & ? & ? & ?).
      exists (item :: kept), w'. rewrite <- app_assoc. split; [done|].
      split; [by apply sublist_skip|]. split; [|by rewrite <- Hfs, <- Hprocs, <- Haudit].
      constructor; [|done]. by apply andb_true_iff in Hkeep as [_ ?].
    + destruct (IH items w1) as (kept & w' & -> & Hsub & Hall & ? & ? & ?).
      exists kept, w'. split; [done|]. split; [by apply sublist_cons|].
      split; [done|]. by rewrite <- Hfs, <- Hprocs, <- Haudit.
  - exists [], w. by rewrite app_nil_r.
Qed.

(** [scan] returns, in the order of discovery, some of the candidates the
    discovery yielded, each of which passes the size, exclusion and
    inclusion gates; it never raises and leaves the filesystem alone. *)
Theorem scan_selects_from_discovery fnmatch self w :
  ∃ found w',
    BaseScanner.scan fnmatch self w = (Return found, w')
    ∧ found `sublist_of`
        yielded (ScannerClass._scan_implementation (BaseScanner.cls self))
    ∧ Forall (λ item, passes_other_gates fnmatch self item = true) found
    ∧ fs w' = fs w.
Proof.
  unfold BaseScanner.scan.
  destruct (negb (BaseScanner.is_supported self)).
  { exists [], w. repeat split; [apply sublist_nil_l | constructor]. }
  destruct (negb (ScannerConfig.enabled _)).
  { exists [], w. repeat split; [apply sublist_nil_l | constructor]. }
  destruct (scan_loop_run fnmatch self
              (ScannerClass._scan_implementation (BaseScanner.cls self)) [] w)
    as (kept & w' & Hrun & Hsub & Hall & Hfs & _).
  exists kept, w'. by rewrite Hrun.
Qed.

(** ** [BaseScanner.cleanup] *)

Lemma unlink_shrinks p w : fs (path_unlink p w).2 ⊆ fs w.
Proof.
  destruct (stat_refused w !! p) as [errno|] eqn:Hstat.
  { unfold path_unlink, path_lookup, path_stat, mbind, M_bind.
    by rewrite Hstat. }
  rewrite (unlink_run _ _ Hstat). destruct (fs w !! p) as [n|]; [|done].
  destruct (fault n); [done|]. case_bool_decide; [done|].
  simpl. apply delete_subseteq.
Qed.

Lemma rmdir_shrinks p w : fs (path_rmdir p w).2 ⊆ fs w.
Proof.
  destruct (stat_refused w !! p) as [errno|] eqn:Hstat.
  { unfold path_rmdir, path_lookup, path_stat, mbind, M_bind.
    by rewrite Hstat. }
  rewrite (rmdir_run _ _ Hstat). destruct (fs w !! p) as [n|]; [|done].
  destruct (negb _); [done|]. destruct (negb _); [done|].
  destruct (fault n); [done|]. simpl. apply delete_subseteq.
Qed.

Lemma unlink_files_shrinks children w :
  fs (BaseScanner.unlink_files children w).2 ⊆ fs w.
Proof.
  revert w. induction children as [|child children IH]; intros w; [done|].
  unfold BaseScanner.unlink_files in *. simpl.
  unfold mbind at 1, M_bind at 1.
  unfold mbind at 1, M_bind at 1.
  destruct (stat_refused w !! child) as [errno|] eqn:Hstat.
  { by rewrite (is_file_refused _ _ _ Hstat). }
  rewrite (is_file_run _ _ Hstat).
  destruct (has_kind RegularFile (fs w) child); simpl; [|apply IH].
  pose proof (unlink_shrinks child w) as Hul.
  destruct (path_unlink child w) as [[[]|e] w1]; [|done].
  simpl in Hul. by etrans; [apply IH|].
Qed.

Lemma safe_remove_shrinks path w :
  fs (BaseScanner._safe_remove path w).2 ⊆ fs w.
Proof.
  destruct (stat_refused w !! path) as [errno|] eqn:Hstat.
  { by rewrite (safe_remove_refused _ _ _ Hstat). }
  destruct (fs w !! path) as [n|] eqn:Hn.
  2: { by rewrite safe_remove_missing. }
  destruct (BaseScanner.locked_in (procs w) path) eqn:Hlocked.
  { by rewrite safe_remove_locked. }
  rewrite (safe_remove_unlocked path w n Hstat Hn Hlocked).
  destruct (kind n).
  - pose proof (unlink_shrinks path w) as H.
    by destruct (path_unlink path w) as [[[]|e] w1].
  - pose proof (unlink_files_shrinks (descendants (fs w) path) w) as H1.
    destruct (BaseScanner.unlink_files _ w) as [[[]|e] w1]; [|done].
    pose proof (rmdir_shrinks path w1) as H2.
    destruct (path_rmdir path w1) as [[[]|e] w2]; simpl in *; by etrans.
  - done.
Qed.

Lemma safe_remove_shape path w :
  ∃ o m,
    BaseScanner._safe_remove path w = (o, set_fs m w)
    ∧ m ⊆ fs w
    ∧ (o = Return true →
       is_Some (fs w !! path) ∧ BaseScanner.locked_in (procs w) path = false).
Proof.
  assert (∃ o m, BaseScanner._safe_remove path w = (o, set_fs m w))
    as (o & m & Hrun).
  { destruct (stat_refused w !! path) as [errno|] eqn:Hstat.
    - exists (Raise (os_error errno)), (fs w). rewrite set_fs_id.
      by apply safe_remove_refused.
    - destruct (safe_remove_returns path w Hstat) as (b & m & Hrun).
      by exists (Return b), m. }
  exists o, m. split; [done|]. split.
  - pose proof (safe_remove_shrinks path w) as H. by rewrite Hrun in H.
  - intros ->. pose proof (safe_remove_true_stat _ _ _ Hrun) as Hstat. split.
    + destruct (fs w !! path) eqn:Hn; [done|].
      by rewrite safe_remove_missing in Hrun.
    + destruct (BaseScanner.locked_in (procs w) path) eqn:Hlocked; [|done].
      by rewrite safe_remove_locked in Hrun.
Qed.

Lemma has_kind_weaken (k : Kind) (m1 m2 : gmap Path Node) (p : Path) :
  m1 ⊆ m2 → is_Some (m1 !! p) → has_kind k m1 p = has_kind k m2 p.
Proof.
  intros Hsub [n Hn]. unfold has_kind.
  by rewrite Hn, (lookup_weaken _ _ _ _ Hn Hsub).
Qed.

Lemma cleanup_loop_run items removed w :
  ∃ new m,
    BaseScanner.cleanup_loop items removed w = (Return (removed ++ new), set_fs m w)
    ∧ m ⊆ fs w
    ∧ new `sublist_of` (WasteItem.path <$> items)
    ∧ ∀ p, p ∈ new →
        is_Some (fs w !! p)
        ∧ BaseScanner.locked_in (procs w) p = false
        ∧ (has_kind RegularFile (fs w) p || has_kind Directory (fs w) p = true →
           m !! p = None).
Proof.
  revert removed w. induction items as [|item items IH]; intros removed w.
  - exists [], (fs w). simpl. rewrite app_nil_r, set_fs_id.
    split; [done|]. split; [done|]. split; [done|].
    intros p Hp. by apply elem_of_nil in Hp.
  - simpl. unfold mbind at 1, M_bind at 1, try_except.
    unfold mbind at 1, M_bind at 1.
    destruct (safe_remove_shape (WasteItem.path item) w)
      as (o & m1 & Hrun & Hsub1 & Hb).
    rewrite Hrun.
    set (credited := match o with Return true => true | _ => false end).
    assert (∃ new m2,
              BaseScanner.cleanup_loop items
                (if credited then removed ++ [WasteItem.path item] else removed)
                (set_fs m1 w)
              = (Return ((if credited then removed ++ [WasteItem.path item]
                          else removed) ++ new), set_fs m2 w)
              ∧ m2 ⊆ m1
              ∧ new `sublist_of` (WasteItem.path <$> items)
              ∧ ∀ p, p ∈ new →
                  is_Some (fs w !! p)
                  ∧ BaseScanner.locked_in (procs w) p = false
                  ∧ (has_kind RegularFile (fs w) p
                       || has_kind Directory (fs w) p = true →
                     m2 !! p = None)) as (new & m2 & Hrest & Hsub2 & Hnew & Hall).
    { destruct (IH (if credited then removed ++ [WasteItem.path item]
                    else removed) (set_fs m1 w))
        as (new & m2 & Hrest & Hsub2 & Hnew & Hall).
      simpl in Hsub2, Hall. rewrite set_fs_set_fs in Hrest.
      exists new, m2. split; [done|]. split; [done|]. split; [done|].
      intros p Hp. destruct (Hall p Hp) as ([n Hn] & Hlocked & Hgone).
      split; [exists n; by eapply lookup_weaken|]. split; [done|].
      intros Hkind. apply Hgone.
      by rewrite !(has_kind_weaken _ m1 (fs w) p) by eauto. }
    destruct o as [[|]|e]; simpl in *; rewrite Hrest.
    + exists (WasteItem.path item :: new), m2. rewrite <- app_assoc.
      split; [done|]. split; [by etrans|]. split; [by apply sublist_skip|].
      intros p [-> | Hp]%elem_of_cons; [|by apply Hall].
      destruct (Hb eq_refl) as [Hex Hlocked]. split; [done|]. split; [done|].
      intros Hkind.
      destruct (safe_remove_true_gone _ _ _ Hrun Hkind) as [Hgone _].
      simpl in Hgone. by eapply lookup_weaken_None.
    + exists new, m2. split; [done|]. split; [by etrans|].
      split; [by apply sublist_cons | done].
    + exists new, m2. split; [done|]. split; [by etrans|].
      split; [by apply sublist_cons | done].
Qed.

(** [cleanup] never raises.  It returns, in request order, some of the
    requested paths, and whatever it does to the filesystem is removal:
    every entry left afterwards was there before, unchanged. *)
Theorem base_cleanup_only_removes self items w :
  ∃ removed w',
    BaseScanner.cleanup self items w = (Return removed, w')
    ∧ removed `sublist_of` (WasteItem.path <$> items)
    ∧ fs w' ⊆ fs w
    ∧ procs w' = procs w ∧ audit w' = audit w.
Proof.
  unfold BaseScanner.cleanup. destruct (negb (BaseScanner.is_supported self)).
  { exists [], w. repeat split; try done. apply sublist_nil_l. }
  destruct (cleanup_loop_run items [] w) as (new & m & Hrun & Hsub & Hnew & _).
  exists new, (set_fs m w). by rewrite Hrun.
Qed.

(** A path that [cleanup] returns existed when the call started, and the
    lock probe does not report it as locked; if it was a regular file or a
    directory, it is gone when the call ends. *)
Theorem base_cleanup_returned_paths_gone self items w removed w' p :
  BaseScanner.cleanup self items w = (Return removed, w') →
  p ∈ removed →
  is_Some (fs w !! p)
  ∧ BaseScanner.locked_in (procs w) p = false
  ∧ (has_kind RegularFile (fs w) p || has_kind Directory (fs w) p = true →
     fs w' !! p = None).
Proof.
  unfold BaseScanner.cleanup. destruct (negb (BaseScanner.is_supported self)).
  { intros [= <- <-] H. by apply elem_of_nil in H. }
  destruct (cleanup_loop_run items [] w) as (new & m & Hrun & _ & _ & Hall).
  rewrite Hrun. intros [= <- <-]. apply Hall.
Qed.

Lemma base_cleanup_returned_paths_gone_witness :
  fs (BaseScanner.cleanup (linux_self (SystemTempScanner Stop)) [a_tmp; held_tmp]
        (sample_world hundred_days)).2 !! ["tmp"; "a.tmp"] = None.
Proof.
  apply (base_cleanup_returned_paths_gone (linux_self (SystemTempScanner Stop))
           [a_tmp; held_tmp] (sample_world hundred_days) [["tmp"; "a.tmp"]]
           _ ["tmp"; "a.tmp"]).
  - apply run_eta. vm_compute. reflexivity.
  - left.
  - vm_compute. reflexivity.
Defined.

(** ** [BaseScanner._is_file_locked] *)

Lemma locked_in_sound ps path :
  BaseScanner.locked_in ps path = true →
  Exists (holds_open path) (enumerated ps).
Proof.
  induction ps as [|info rest IH|e]; simpl; [done| |done].
  destruct info as [[files|]|e].
  - case_bool_decide as Hin.
    + intros _. left. by exists files.
    + intros H. right. by apply IH.
  - intros H. right. by apply IH.
  - destruct (exc_class e); try done; intros H; right; by apply IH.
Qed.

Lemma locked_in_complete ps path :
  enumeration_completes ps →
  Exists (holds_open path) (enumerated ps) →
  BaseScanner.locked_in ps path = true.
Proof.
  induction ps as [|info rest IH|e]; simpl; [| |done].
  - intros _ H. by apply Exists_nil in H.
  - destruct info as [[files|]|e].
    + intros Hc [(files' & [= <-] & Hin) | H]%Exists_cons.
      * by rewrite bool_decide_eq_true_2.
      * case_bool_decide; [done|]. by apply IH.
    + intros Hc [(files' & [=] & _) | H]%Exists_cons. by apply IH.
    + intros [Hbenign Hc] [(files' & [=] & _) | H]%Exists_cons.
      destruct Hbenign as [-> | ->]; by apply IH.
Qed.

(** The lock probe reports a path as locked only if some enumerated
    process has it among its open files; and when the enumeration runs to
    its end, every process being readable or skipped for [NoSuchProcess]
    or [AccessDenied], it does report every such path. *)
Theorem lock_probe_sees_holders ps path :
  (BaseScanner.locked_in ps path = true →
   Exists (holds_open path) (enumerated ps))
  ∧ (enumeration_completes ps →
     Exists (holds_open path) (enumerated ps) →
     BaseScanner.locked_in ps path = true).
Proof. split; [apply locked_in_sound | apply locked_in_complete]. Qed.

Lemma lock_probe_sees_holders_witness :
  Exists (holds_open ["tmp"; "held.tmp"])
    (enumerated (procs (sample_world hundred_days)))
  ∧ BaseScanner.locked_in
      (PYield (Raise (Exn AccessDenied "pid 1"))
         (PYield (Return (Some [["tmp"; "a.tmp"]; ["tmp"; "held.tmp"]])) PStop))
      ["tmp"; "held.tmp"] = true.
Proof.
  split.
  - apply (proj1 (lock_probe_sees_holders (procs (sample_world hundred_days))
                    ["tmp"; "held.tmp"])).
    vm_compute. reflexivity.
  - apply (proj2 (lock_probe_sees_holders
                    (PYield (Raise (Exn AccessDenied "pid 1"))
                       (PYield (Return (Some [["tmp"; "a.tmp"]; ["tmp"; "held.tmp"]]))
                          PStop))
                    ["tmp"; "held.tmp"])).
    + simpl. split; [by right | done].
    + simpl. right. left. eexists. split; [reflexivity|]. right. left.
Defined.

(** The lock probe fails open.  If the enumeration of processes raises, or
    reading one process raises anything but [NoSuchProcess] or
    [AccessDenied], before a holder of the path has been seen, the path is
    reported as not locked, whatever the processes not yet looked at hold
    open. *)
Theorem lock_probe_fails_open infos e rest path :
  Forall (λ info, ¬ holds_open path info) infos →
  BaseScanner.locked_in (enumerate_first infos (PRaise e)) path = false
  ∧ (exc_class e ≠ NoSuchProcess → exc_class e ≠ AccessDenied →
     BaseScanner.locked_in (enumerate_first infos (PYield (Raise e) rest)) path
     = false).
Proof.
  induction 1 as [|info infos Hinfo _ [IH1 IH2]]; simpl.
  - split; [done|]. intros H1 H2. by destruct (exc_class e).
  - assert (∀ tail, BaseScanner.locked_in tail path = false →
                    BaseScanner.locked_in (PYield info tail) path = false) as Hstep.
    { intros tail Htail. simpl. destruct info as [[files|]|e']; [|done|].
      - case_bool_decide as Hin; [|done]. destruct Hinfo. by exists files.
      - by destruct (exc_class e'). }
    split; [by apply Hstep|]. intros H1 H2. apply Hstep. by apply IH2.
Qed.

Lemma lock_probe_fails_open_witness :
  BaseScanner.locked_in
    (enumerate_first [Return None; Return (Some [["tmp"; "a.tmp"]])]
       (PYield (Raise (Exn Exception "zombie process"))
          (PYield (Return (Some [["tmp"; "held.tmp"]])) PStop)))
    ["tmp"; "held.tmp"] = false.
Proof.
  destruct (lock_probe_fails_open
              [Return None; Return (Some [["tmp"; "a.tmp"]])]
              (Exn Exception "zombie process")
              (PYield (Return (Some [["tmp"; "held.tmp"]])) PStop)
              ["tmp"; "held.tmp"]) as [_ Hopen].
  - constructor; [by intros (files & [=] & _)|].
    constructor; [|constructor].
    intros (files & [= <-] & Hin). apply list_elem_of_singleton in Hin.
    discriminate.
  - apply Hopen; discriminate.
Defined.

(** ** [ScannerManager._filter_scanners] and [scan_system] *)

(** An empty list of names selects as no list does: all enabled scanners.
    Whatever the names, the selection keeps registration order, and holds
    exactly the registered, enabled scanners whose name is asked for; a
    disabled scanner is never selected, a name nobody bears selects
    nothing. *)
Theorem filter_scanners_selects self scanner_names :
  ScannerManager._filter_scanners self (Some [])
    = ScannerManager._filter_scanners self None
  ∧ ScannerManager._filter_scanners self scanner_names
      `sublist_of` ScannerManager.scanners self
  ∧ ∀ scanner,
      scanner ∈ ScannerManager._filter_scanners self scanner_names ↔
      scanner ∈ ScannerManager.scanners self
      ∧ ScannerConfig.enabled (Scanner.config scanner) = true
      ∧ match scanner_names with
        | None | Some [] => True
        | Some names => Scanner.name scanner ∈ names
        end.
Proof.
  split; [done|]. unfold ScannerManager._filter_scanners. split.
  - destruct scanner_names as [[|name names]|]; apply sublist_filter.
  - intros scanner.
    destruct scanner_names as [[|name names]|];
      rewrite list_elem_of_filter; unfold ScannerManager.is_enabled; tauto.
Qed.

(** On a platform that is neither Windows, Linux nor macOS, [scan_system]
    raises [ValueError] before any scanner is run and before anything is
    logged: the machine has only seen the start time and the report id
    being read. *)
Theorem scan_system_unsupported_platform self scanner_names w :
  system w ≠ "windows" → system w ≠ "linux" → system w ≠ "darwin" →
  ScannerManager.scan_system self scanner_names w
  = (Raise (Exn ValueError ("Unsupported platform: " +:+ system w)),
     tick (tick w)).
Proof.
  intros H1 H2 H3.
  unfold ScannerManager.scan_system, ScannerManager._detect_platform,
    ScannerManager._generate_id.
  unfold_M. by rewrite !bool_decide_eq_false_2.
Qed.

Lemma scan_system_unsupported_platform_witness :
  ScannerManager.scan_system three_scanners None freebsd_world
  = (Raise (Exn ValueError ("Unsupported platform: " +:+ system freebsd_world)),
     tick (tick freebsd_world)).
Proof.
  apply (scan_system_unsupported_platform three_scanners None freebsd_world);
    discriminate.
Defined.

(** ** The routing of [ScannerManager.cleanup] *)

(** Every call [cleanup] makes goes to the first registered scanner
    declaring the category of the items it is handed: the batch is not
    empty, holds only requested items of the scanner's category, and no
    scanner registered before it declares that category, so a scanner
    registered after another of the same category is never called. *)
Theorem cleanup_routes_to_first_owner self items w :
  Forall (λ call,
            let '(i, scanner, scanner_items, _) := call in
            ScannerManager.scanners self !! i = Some scanner
            ∧ scanner_items ≠ []
            ∧ (∀ item, item ∈ scanner_items →
                 item ∈ items
                 ∧ WasteItem.category item = Scanner.get_category scanner)
            ∧ (∀ j other,
                 j < i → ScannerManager.scanners self !! j = Some other →
                 Scanner.get_category other ≠ Scanner.get_category scanner))
    (dispatches_of self items w).
Proof.
  apply Forall_forall. intros [[[i scanner] its] o] Hcall.
  assert ((i, scanner, its)
            ∈ ScannerManager.group_items (ScannerManager.scanners self) items)
    as Hgroup.
  { apply (cleanup_calls_elem _ (after_header w)). by exists o. }
  destruct (group_items_spec (ScannerManager.scanners self) items) as [Hsound _].
  destruct (Hsound _ _ _ Hgroup) as [Hi Hits].
  pose proof (proj1 (Forall_forall _ _)
                (group_items_nonempty (ScannerManager.scanners self) items)
                _ Hgroup) as Hne.
  simpl in Hne.
  assert (∀ item, item ∈ its →
            WasteItem.category item = Scanner.get_category scanner
            ∧ ∀ j other,
                j < i → ScannerManager.scanners self !! j = Some other →
                Scanner.get_category other ≠ WasteItem.category item) as Hfirst.
  { intros item Hitem. destruct (Hits item Hitem) as [_ Hown].
    unfold ScannerManager.owner in Hown.
    apply list_find_Some in Hown as (_ & Hcat & Hbefore).
    split; [done|]. intros j other Hj Hother. by apply (Hbefore j other). }
  split; [done|]. split; [done|]. split.
  - intros item Hitem. split; [by apply Hits | by apply Hfirst].
  - intros j other Hj Hother. destruct its as [|item its]; [done|].
    destruct (Hfirst item ltac:(left)) as [<- Hbefore]. by apply (Hbefore j).
Qed.

Lemma cleanup_calls_keys items_by_scanner w :
  (cleanup_calls items_by_scanner w).*1.*1.*1 = items_by_scanner.*1.*1.
Proof. by rewrite cleanup_calls_groups. Qed.

(** [cleanup] calls no scanner twice: each registered scanner gets at most
    one batch. *)
Theorem cleanup_calls_each_scanner_once self items w :
  NoDup (dispatches_of self items w).*1.*1.*1.
Proof.
  unfold dispatches_of. rewrite cleanup_calls_keys.
  apply group_items_keys_NoDup.
Qed.

Lemma calls_account calls :
  length (credited_items calls) + length (recorded_failures calls)
    + length (abandoned_items calls)
  = length (mjoin calls.*1.*2).
Proof.
  induction calls as [|[[[i scanner] its] o] calls IH]; [done|].
  unfold credited_items, recorded_failures, abandoned_items in *.
  rewrite !bind_cons, !fmap_cons. simpl. rewrite !List.length_app.
  destruct o as [removed_paths|e]; simpl; [|lia].
  rewrite length_fmap.
  pose proof (filter_app_complement (ScannerManager.returned removed_paths) its)
    as Hperm.
  apply Permutation_length in Hperm. rewrite List.length_app in Hperm. lia.
Qed.

(** The batches handed out by [cleanup] are, together, the requested items
    that have an owning scanner, each once; and the report accounts for
    every one of them: it is credited as removed, or recorded as failed,
    or it belongs to a batch whose scanner's [cleanup] raised. *)
Theorem cleanup_accounts_for_owned_items self items w :
  logger_returns (ScannerManager.audit_logger self) →
  ∃ report w',
    ScannerManager.cleanup self items false w = (Return report, w')
    ∧ mjoin (dispatches_of self items w).*1.*2
      ≡ₚ owned_items (ScannerManager.scanners self) items
    ∧ length (CleanupResult.removed_items report)
        + length (CleanupResult.failed_items report)
        + length (abandoned_items (dispatches_of self items w))
      = length (owned_items (ScannerManager.scanners self) items).
Proof.
  intros Hlog.
  destruct (cleanup_run self items w Hlog)
    as (report & w' & Hrun & Hrem & Hfail & _).
  exists report, w'. split; [done|].
  assert (mjoin (dispatches_of self items w).*1.*2
          ≡ₚ owned_items (ScannerManager.scanners self) items) as Hperm.
  { unfold dispatches_of. rewrite cleanup_calls_groups.
    apply group_items_partition. }
  split; [done|].
  rewrite Hrem, Hfail, calls_account. by rewrite Hperm.
Qed.

Lemma cleanup_accounts_for_owned_items_witness :
  ∃ report w',
    ScannerManager.cleanup three_scanners [a_tmp; z_log; cookies; held_tmp] false
      (sample_world hundred_days) = (Return report, w')
    ∧ length (CleanupResult.removed_items report)
        + length (CleanupResult.failed_items report)
        + length (abandoned_items
                    (dispatches_of three_scanners [a_tmp; z_log; cookies; held_tmp]
                       (sample_world hundred_days)))
      = length (owned_items (ScannerManager.scanners three_scanners)
                  [a_tmp; z_log; cookies; held_tmp]).
Proof.
  destruct (cleanup_accounts_for_owned_items three_scanners
              [a_tmp; z_log; cookies; held_tmp] (sample_world hundred_days))
    as (report & w' & Hrun & _ & Hcount).
  - vm_compute. split; intros r w; eexists; reflexivity.
  - by exists report, w'.
Defined.

(** A scanner whose [cleanup] raises does not stop the run.  [cleanup]
    still returns a report; the report has the message
    ["Cleanup failed for scanner <name>: <error>"] among its errors, and
    credits none of the items of that scanner's batch as removed. *)
Theorem cleanup_contains_scanner_failure self items w :
  logger_returns (ScannerManager.audit_logger self) →
  ∃ report w',
    ScannerManager.cleanup self items false w = (Return report, w')
    ∧ ∀ i scanner scanner_items e,
        (i, scanner, scanner_items, Raise e) ∈ dispatches_of self items w →
        ("Cleanup failed for scanner " +:+ Scanner.name scanner +:+ ": "
           +:+ exc_str e) ∈ CleanupResult.errors report
        ∧ ∀ item, item ∈ scanner_items →
                  item ∉ CleanupResult.removed_items report.
Proof.
  intros Hlog.
  destruct (cleanup_run self items w Hlog)
    as (report & w' & Hrun & Hrem & _ & Herr & _).
  exists report, w'. split; [done|].
  intros i scanner its e Hcall. split.
  - rewrite Herr. unfold cleanup_errors. apply list_elem_of_bind.
    exists (i, scanner, its, Raise e). split; [|done].
    apply list_elem_of_singleton. reflexivity.
  - intros item Hitem. rewrite Hrem.
    intros (i' & s' & its' & removed_paths & Hcall' & Hitem' & _)
             %elem_of_credited_items.
    destruct (group_items_spec (ScannerManager.scanners self) items)
      as [Hsound _].
    assert (∀ j s1 its1 o,
              (j, s1, its1, o) ∈ dispatches_of self items w →
              item ∈ its1 →
              ScannerManager.owner (ScannerManager.scanners self)
                (WasteItem.category item) = Some (j, s1)) as Hown.
    { intros j s1 its1 o Hc Hi.
      assert ((j, s1, its1)
                ∈ ScannerManager.group_items (ScannerManager.scanners self) items)
        as Hgroup.
      { apply (cleanup_calls_elem _ (after_header w)). by exists o. }
      destruct (Hsound _ _ _ Hgroup) as [_ Hits]. by apply Hits. }
    pose proof (Hown _ _ _ _ Hcall Hitem) as H1.
    pose proof (Hown _ _ _ _ Hcall' Hitem') as H2.
    rewrite H1 in H2. injection H2 as <- <-.
    assert (NoDup ((λ call : nat * Scanner.t * list WasteItem.t
                                 * outcome (list Path), call.1.1.1)
                     <$> dispatches_of self items w)) as Hnodup.
    { unfold dispatches_of.
      pose proof (group_items_keys_NoDup (ScannerManager.scanners self) items)
        as Hkeys.
      rewrite <- (cleanup_calls_groups _ (after_header w)) in Hkeys.
      by rewrite <- !list_fmap_compose in Hkeys. }
    pose proof (NoDup_fmap_agree _ _ _ _ Hnodup Hcall Hcall' eq_refl) as Heq.
    discriminate Heq.
Qed.

Lemma cleanup_contains_scanner_failure_witness :
  ∃ report w',
    ScannerManager.cleanup broken_in_the_middle [a_tmp; stray_file] false
      (sample_world hundred_days) = (Return report, w')
    ∧ "Cleanup failed for scanner BrokenScanner: boom"
        ∈ CleanupResult.errors report
    ∧ stray_file ∉ CleanupResult.removed_items report.
Proof.
  destruct (cleanup_contains_scanner_failure broken_in_the_middle
              [a_tmp; stray_file] (sample_world hundred_days))
    as (report & w' & Hrun & Hcalls).
  - vm_compute. split; intros r w; eexists; reflexivity.
  - destruct (Hcalls 1 (broken_scanner OTHER) [stray_file]
                (Exn Exception "boom")) as [Herr Hnot].
    + right. left.
    + exists report, w'. split; [done|]. split; [done|].
      apply Hnot. left.
Defined.

(** ** Registration *)

(** Registering a list of scanners one after the other appends the
    supported ones, in the order given, to those already registered, and
    drops the others; [get_scanner_info] lists them in that order. *)
Theorem registration_keeps_order self l :
  ScannerManager.scanners (foldl ScannerManager.register_scanner self l)
  = ScannerManager.scanners self ++ filter (λ s, Scanner.is_supported s = true) l
  ∧ ScannerInfo.name <$>
      ScannerManager.get_scanner_info (foldl ScannerManager.register_scanner self l)
    = (Scanner.name <$> ScannerManager.scanners self)
        ++ (Scanner.name <$> filter (λ s, Scanner.is_supported s = true) l).
Proof.
  assert (ScannerManager.scanners (foldl ScannerManager.register_scanner self l)
          = ScannerManager.scanners self
              ++ filter (λ s, Scanner.is_supported s = true) l) as Hscanners.
  { revert self. induction l as [|s l IH]; intros self; simpl.
    - by rewrite app_nil_r.
    - rewrite IH. unfold ScannerManager.register_scanner.
      destruct (Scanner.is_supported s) eqn:Hs.
      + rewrite filter_cons_True by done. simpl. by rewrite <- app_assoc.
      + rewrite filter_cons_False by (by rewrite Hs). done. }
  split; [done|].
  unfold ScannerManager.get_scanner_info. rewrite Hscanners.
  rewrite <- list_fmap_compose, fmap_app. done.
Qed.

Lemma detects_cases w p :
  detects w p →
  (system w = "windows" ∧ p = WINDOWS)
  ∨ (system w = "linux" ∧ p = LINUX)
  ∨ (system w = "darwin" ∧ p = MACOS).
Proof.
  unfold detects, ScannerManager._detect_platform. unfold_M.
  repeat case_bool_decide; simpl; intros [=]; subst; tauto.
Qed.

Lemma base_new_run fnmatch c config w p :
  detects w p →
  BaseScanner.new fnmatch c config w
  = (Return (BaseScanner.obj fnmatch
               (BaseScanner.mkSelf c (default ScannerConfig.default config) p)),
     w).
Proof.
  intros Hdet. unfold BaseScanner.new, BaseScanner.__init__.
  change BaseScanner._detect_platform with ScannerManager._detect_platform.
  unfold mbind at 1, M_bind at 1. unfold mbind at 1, M_bind at 1.
  by rewrite (detect_platform_run w w p Hdet eq_refl).
Qed.

Lemma register_class_run fnmatch self c config w p :
  detects w p →
  ScannerManager.register_scanner_class self (BaseScanner.new fnmatch c config) w
  = (Return (ScannerManager.register_scanner self
               (BaseScanner.obj fnmatch
                  (BaseScanner.mkSelf c (default ScannerConfig.default config) p))),
     w).
Proof.
  intros Hdet. unfold ScannerManager.register_scanner_class.
  unfold mbind at 1, M_bind at 1. by rewrite (base_new_run _ _ _ _ p Hdet).
Qed.

(** On Windows, Linux and macOS the server's registrations leave the
    manager with its four scanners, in order, and the machine untouched.
    Only temp files, system logs and browser cache then have an owning
    scanner, and browser cache belongs to the Chrome scanner: the Firefox
    scanner, registered after it under the same category, owns nothing.
    On any other platform the first construction raises [ValueError]. *)
Theorem server_registrations fnmatch logger temp logs chrome firefox w :
  (∀ p, detects w p →
     ∃ manager,
       _register_scanners fnmatch temp logs chrome firefox
         (ScannerManager.__init__ logger) w = (Return manager, w)
       ∧ Scanner.name <$> ScannerManager.scanners manager
         = ["SystemTempScanner"; "SystemLogsScanner"; "ChromeScanner";
            "FirefoxScanner"]
       ∧ ∀ category,
           match ScannerManager.owner (ScannerManager.scanners manager) category with
           | Some (i, scanner) =>
               (category, i, Scanner.name scanner)
               ∈ [ (TEMP_FILES, 0, "SystemTempScanner");
                   (SYSTEM_LOGS, 1, "SystemLogsScanner");
                   (BROWSER_CACHE, 2, "ChromeScanner") ]
           | None =>
               category ∉ [TEMP_FILES; SYSTEM_LOGS; BROWSER_CACHE]
           end)
  ∧ (system w ≠ "windows" → system w ≠ "linux" → system w ≠ "darwin" →
     _register_scanners fnmatch temp logs chrome firefox
       (ScannerManager.__init__ logger) w
     = (Raise (Exn ValueError ("Unsupported platform: " +:+ system w)), w)).
Proof.
  split.
  - intros p Hdet. unfold _register_scanners.
    unfold mbind at 1, M_bind at 1. rewrite (register_class_run _ _ _ _ _ p Hdet).
    unfold mbind at 1, M_bind at 1. rewrite (register_class_run _ _ _ _ _ p Hdet).
    unfold mbind at 1, M_bind at 1. rewrite (register_class_run _ _ _ _ _ p Hdet).
    rewrite (register_class_run _ _ _ _ _ p Hdet).
    eexists. split; [reflexivity|].
    destruct (detects_cases w p Hdet) as [[_ ->] | [[_ ->] | [_ ->]]];
      (split; [reflexivity|];
       intros category; destruct category; vm_compute;
       first [ solve [repeat constructor]
             | intros H;
               repeat match goal with
                      | H : list_elem_of _ _ |- _ => inversion H; clear H; subst
                      | H : _ ∈ _ |- _ => inversion H; clear H; subst
                      end ]).
  - intros H1 H2 H3.
    unfold _register_scanners, ScannerManager.register_scanner_class,
      BaseScanner.new, BaseScanner.__init__, BaseScanner._detect_platform.
    unfold_M. by rewrite !bool_decide_eq_false_2.
Qed.

Lemma server_registrations_witness :
  (∃ manager,
     _register_scanners glob_fnmatch temp_found logs_found chrome_found Stop
       (ScannerManager.__init__ AuditLogger.recording) (sample_world hundred_days)
     = (Return manager, sample_world hundred_days)
     ∧ Scanner.name <$> ScannerManager.scanners manager
       = ["SystemTempScanner"; "SystemLogsScanner"; "ChromeScanner";
          "FirefoxScanner"])
  ∧ _register_scanners glob_fnmatch temp_found logs_found chrome_found Stop
      (ScannerManager.__init__ AuditLogger.recording) freebsd_world
    = (Raise (Exn ValueError ("Unsupported platform: " +:+ system freebsd_world)),
       freebsd_world).
Proof.
  split.
  - destruct (proj1 (server_registrations glob_fnmatch AuditLogger.recording
                       temp_found logs_found chrome_found Stop
                       (sample_world hundred_days)) LINUX)
      as (manager & Hrun & Hnames & _).
    + vm_compute. reflexivity.
    + by exists manager.
  - apply (proj2 (server_registrations glob_fnmatch AuditLogger.recording
                    temp_found logs_found chrome_found Stop freebsd_world));
      vm_compute; discriminate.
Defined.

(** The platform stamped on a scan report is the platform every scanner
    constructed on the same system recorded as its own, and it is never
    [ALL]: the two copies of [_detect_platform] agree. *)
Theorem platform_stamp_agrees c config w self_b w1 manager scanner_names w2 :
  BaseScanner.__init__ c config w = (Return self_b, w1) →
  system w2 = system w →
  logger_returns (ScannerManager.audit_logger manager) →
  BaseScanner._current_platform self_b ≠ ALL
  ∧ ∃ report w',
      ScannerManager.scan_system manager scanner_names w2 = (Return report, w')
      ∧ ScanResult.platform report = BaseScanner._current_platform self_b.
Proof.
  intros Hinit Hsys Hlog.
  assert (detects w (BaseScanner._current_platform self_b)) as Hdet.
  { unfold detects. unfold BaseScanner.__init__ in Hinit.
    change BaseScanner._detect_platform with ScannerManager._detect_platform
      in Hinit.
    unfold mbind, M_bind in Hinit.
    destruct (ScannerManager._detect_platform w) as [[p|e] w0]; [|done].
    by injection Hinit as <- _. }
  split.
  - destruct (detects_cases _ _ Hdet) as [[_ ->] | [[_ ->] | [_ ->]]]; done.
  - assert (detects w2 (BaseScanner._current_platform self_b)) as Hdet2.
    { unfold detects. by rewrite (detect_platform_run w w2 _ Hdet Hsys). }
    destruct (scan_system_run manager scanner_names w2 _ Hdet2 Hlog)
      as (report & w' & Hrun & _ & _ & _ & _ & Hplatform).
    by exists report, w'.
Qed.

Lemma platform_stamp_agrees_witness :
  ∃ report w',
    ScannerManager.scan_system three_scanners None (sample_world half_a_day)
    = (Return report, w')
    ∧ ScanResult.platform report = LINUX.
Proof.
  destruct (platform_stamp_agrees (SystemTempScanner Stop) None
              (sample_world hundred_days)
              (BaseScanner.mkSelf (SystemTempScanner Stop) ScannerConfig.default LINUX)
              (sample_world hundred_days)
              three_scanners None (sample_world half_a_day))
    as [_ H].
  - reflexivity.
  - reflexivity.
  - vm_compute. split; intros r w; eexists; reflexivity.
  - exact H.
Defined.

(** ** [ScanResult.by_category] *)

Lemma setdefault_append_keys result category item :
  (setdefault_append result category item).*1
  = if decide (category ∈ result.*1) then result.*1 else result.*1 ++ [category].
Proof.
  induction result as [|[k its] result IH].
  - done.
  - change (((k, its) :: result).*1) with (k :: result.*1).
    simpl setdefault_append. case_bool_decide as Hk.
    + subst. change (((category, its ++ [item]) :: result).*1)
        with (category :: result.*1).
      rewrite decide_True; [done | left].
    + change (((k, its) :: setdefault_append result category item).*1)
        with (k :: (setdefault_append result category item).*1).
      rewrite IH. destruct (decide (category ∈ result.*1)) as [Hin | Hin].
      * rewrite decide_True; [done | by right].
      * rewrite decide_False; [done|].
        intros [-> | ?]%elem_of_cons; done.
Qed.

Lemma setdefault_append_elem result category item k its :
  NoDup result.*1 →
  (k, its) ∈ setdefault_append result category item ↔
  (k ≠ category ∧ (k, its) ∈ result)
  ∨ (k = category
     ∧ ((∃ its0, (category, its0) ∈ result ∧ its = its0 ++ [item])
        ∨ ((category ∉ result.*1) ∧ its = [item]))).
Proof.
  induction result as [|[k0 its0] result IH]; intros Hnodup.
  - simpl. rewrite list_elem_of_singleton. split.
    + intros H. injection H as -> ->. right. split; [done|]. right.
      split; [|done]. intros H. by apply elem_of_nil in H.
    + intros [[_ H] | [-> [(its1 & H & _) | [_ ->]]]].
      * by apply elem_of_nil in H.
      * by apply elem_of_nil in H.
      * done.
  - change (((k0, its0) :: result).*1) with (k0 :: result.*1) in *.
    apply NoDup_cons in Hnodup as [Hk0 Hnodup]. specialize (IH Hnodup).
    assert (∀ its1, (k0, its1) ∈ result → False) as Hfresh.
    { intros its1 Hin. apply Hk0. apply list_elem_of_fmap.
      by exists (k0, its1). }
    simpl setdefault_append. case_bool_decide as Hk.
    + subst k0. rewrite !elem_of_cons. split.
      * intros [H | Hin].
        -- injection H as -> ->. right. split; [done|]. left.
           exists its0. split; [by left | done].
        -- left. split; [|by right]. intros ->. by apply (Hfresh its).
      * intros [[Hne [H | Hin]]
               | [-> [(its1 & [H | Hin]%elem_of_cons & ->) | [Hnot _]]]].
        -- by simplify_eq.
        -- by right.
        -- simplify_eq. by left.
        -- destruct (Hfresh its1 Hin).
        -- destruct Hnot. rewrite ?elem_of_cons. by left.
    + rewrite !elem_of_cons, IH. split.
      * intros [H | [[Hne Hin] | [-> [(its1 & Hin & ->) | [Hnot ->]]]]].
        -- injection H as -> ->. left. split; [done | by left].
        -- left. split; [done | by right].
        -- right. split; [done|]. left. exists its1. split; [by right | done].
        -- right. split; [done|]. right. split; [|done].
           rewrite ?elem_of_cons. intros [-> | ?]; done.
      * intros [[Hne [H | Hin]]
               | [-> [(its1 & [H | Hin]%elem_of_cons & ->) | [Hnot ->]]]].
        -- by left.
        -- right. left. done.
        -- by simplify_eq.
        -- right. right. split; [done|]. left. by exists its1.
        -- right. right. split; [done|]. right. split; [|done].
           intros ?. apply Hnot. rewrite ?elem_of_cons. by right.
Qed.

Lemma by_category_invariant (items : list WasteItem.t) :
  let result :=
    foldl (λ result item, setdefault_append result (WasteItem.category item) item)
      [] items in
  NoDup result.*1
  ∧ ∀ category its,
      (category, its) ∈ result ↔
      its = filter (λ item, WasteItem.category item = category) items
      ∧ its ≠ [].
Proof.
  induction items as [|item items IH] using rev_ind.
  - simpl. split; [constructor|]. intros category its. split.
    + by intros ?%elem_of_nil.
    + by intros [-> ?].
  - rewrite foldl_snoc. simpl in *. destruct IH as [Hnodup IH].
    set (result := foldl _ [] items) in *.
    split.
    + rewrite setdefault_append_keys. case_decide as Hin; [done|].
      apply NoDup_app. split; [done|]. split; [|apply NoDup_singleton].
      by intros x Hx ->%list_elem_of_singleton.
    + intros category its.
      rewrite (setdefault_append_elem _ _ _ _ _ Hnodup), filter_app.
      split.
      * intros [[Hne Hin] | [-> [(its0 & Hin & ->) | [Hnot ->]]]].
        -- apply IH in Hin as [-> Hnonempty].
           rewrite filter_cons_False by done. by rewrite filter_nil, app_nil_r.
        -- apply IH in Hin as [-> Hnonempty].
           rewrite filter_cons_True by done. split; [done|].
           by destruct (filter _ items).
        -- rewrite filter_cons_True by done. rewrite filter_nil.
           destruct (filter (λ item0, WasteItem.category item0
                                      = WasteItem.category item) items)
             as [|x l] eqn:Hfilter; [done|].
           destruct Hnot. apply list_elem_of_fmap.
           exists (WasteItem.category item, x :: l). split; [done|].
           apply IH. by rewrite Hfilter.
      * intros [-> Hnonempty].
        destruct (decide (category = WasteItem.category item)) as [-> | Hne].
        -- right. split; [done|]. rewrite filter_cons_True by done.
           rewrite filter_nil.
           destruct (filter (λ item0, WasteItem.category item0
                                      = WasteItem.category item) items)
             as [|x l] eqn:Hfilter.
           ++ right. split; [|done]. intros Hin.
              apply list_elem_of_fmap in Hin as ([k its0] & [= <-] & Hin).
              apply IH in Hin as [-> Hne0]. by rewrite Hfilter in Hne0.
           ++ left. exists (x :: l). split; [|done]. apply IH.
              by rewrite Hfilter.
        -- left. split; [done|].
           rewrite filter_cons_False in * by (by intros ?).
           rewrite filter_nil, app_nil_r in *. by apply IH.
Qed.

Lemma setdefault_append_join result category item :
  mjoin (setdefault_append result category item).*2
  ≡ₚ mjoin result.*2 ++ [item].
Proof.
  induction result as [|[k its] result IH]; simpl; [done|].
  case_bool_decide; simpl.
  - rewrite <- !app_assoc. f_equiv. apply Permutation_app_comm.
  - rewrite IH. by rewrite app_assoc.
Qed.

Lemma by_category_partition (items : list WasteItem.t) :
  mjoin (foldl (λ result item,
                  setdefault_append result (WasteItem.category item) item)
           [] items).*2
  ≡ₚ items.
Proof.
  induction items as [|item items IH] using rev_ind; [done|].
  by rewrite foldl_snoc, setdefault_append_join, IH.
Qed.

(** [by_category] has one entry per category that occurs among the
    report's items and none for the others; the entry of a category holds
    exactly the items of that category, in report order; and the entries
    together hold every item of the report once. *)
Theorem by_category_groups self :
  NoDup (by_category self).*1
  ∧ (∀ category its,
       (category, its) ∈ by_category self ↔
       its = filter (λ item, WasteItem.category item = category)
               (ScanResult.items self)
       ∧ its ≠ [])
  ∧ mjoin (by_category self).*2 ≡ₚ ScanResult.items self.
Proof.
  destruct (by_category_invariant (ScanResult.items self)) as [Hkeys Hgroups].
  split; [done|]. split; [done|]. apply by_category_partition.
Qed.

(** ** The totals of a scan report *)

Lemma Zsum_app (l1 l2 : list Z) :
  foldr Z.add 0%Z (l1 ++ l2) = (foldr Z.add 0 l1 + foldr Z.add 0 l2)%Z.
Proof.
  induction l1 as [|x l1 IH]; simpl; [done|]. rewrite IH. lia.
Qed.

Lemma sum_sizes_join (groups : list (list WasteItem.t)) :
  foldr Z.add 0%Z (WasteItem.size <$> mjoin groups)
  = foldr Z.add 0%Z
      ((λ group, foldr Z.add 0%Z (WasteItem.size <$> group)) <$> groups).
Proof.
  induction groups as [|group groups IH]; [done|].
  change (mjoin (group :: groups)) with (group ++ mjoin groups).
  rewrite fmap_app, Zsum_app, IH. reflexivity.
Qed.

Lemma Zsum_perm (l1 l2 : list Z) :
  l1 ≡ₚ l2 → foldr Z.add 0%Z l1 = foldr Z.add 0%Z l2.
Proof.
  induction 1 as [|x l1 l2 _ IH|x y l|l1 l2 l3 _ IH1 _ IH2]; simpl in *; lia.
Qed.

Lemma sum_sizes_perm (l1 l2 : list WasteItem.t) :
  l1 ≡ₚ l2 →
  foldr Z.add 0%Z (WasteItem.size <$> l1)
  = foldr Z.add 0%Z (WasteItem.size <$> l2).
Proof. intros H. apply Zsum_perm. by rewrite H. Qed.

(** The three sample scanners on the sample machine find five items. *)
Lemma scan_sample_run :
  match (ScannerManager.scan_system three_scanners None
           (sample_world hundred_days)).1 with
  | Return report =>
      ScanResult.items report = [a_tmp; held_tmp; z_log; cache_file; cookies]
  | Raise _ => False
  end.
Proof. vm_compute. done. Qed.

(** The totals of a scan report are those of its items: [total_found] is
    their number and [total_size] the sum of their sizes.  The breakdown
    [by_category] adds up to the same totals: its groups hold
    [total_found] items and [total_size] bytes together.  The report is
    stamped with the detected platform. *)
Theorem scan_system_totals self scanner_names w p :
  detects w p →
  logger_returns (ScannerManager.audit_logger self) →
  ∃ report w',
    ScannerManager.scan_system self scanner_names w = (Return report, w')
    ∧ ScanResult.total_found report = length (ScanResult.items report)
    ∧ ScanResult.total_size report
      = foldr Z.add 0%Z (WasteItem.size <$> ScanResult.items report)
    ∧ ScanResult.total_found report
      = sum_list (length <$> (by_category report).*2)
    ∧ ScanResult.total_size report
      = foldr Z.add 0%Z
          ((λ group, foldr Z.add 0%Z (WasteItem.size <$> group))
             <$> (by_category report).*2)
    ∧ ScanResult.platform report = p.
Proof.
  intros Hdet Hlog.
  destruct (scan_system_run self scanner_names w p Hdet Hlog)
    as (report & w' & Hrun & _ & _ & Hfound & Hsize & Hplatform).
  exists report, w'. split; [done|].
  pose proof (by_category_partition (ScanResult.items report)) as Hperm.
  fold (by_category report) in Hperm.
  rewrite Hfound, Hsize, sum_sizes_spec.
  split; [done|]. split; [done|]. split; [|split; [|done]].
  - rewrite <- length_join. by apply Permutation_length.
  - rewrite <- sum_sizes_join. by apply sum_sizes_perm.
Qed.

Lemma scan_system_totals_witness :
  ∃ report w',
    ScannerManager.scan_system three_scanners None (sample_world hundred_days)
    = (Return report, w')
    ∧ ScanResult.total_found report = 5
    ∧ ScanResult.total_size report = 16891%Z
    ∧ ScanResult.platform report = LINUX.
Proof.
  destruct (scan_system_totals three_scanners None (sample_world hundred_days)
              LINUX)
    as (report & w' & Hrun & Hfound & Hsize & _ & _ & Hplatform).
  - vm_compute. reflexivity.
  - vm_compute. split; intros r w; eexists; reflexivity.
  - pose proof scan_sample_run as Hsample. rewrite Hrun in Hsample.
    simpl in Hsample.
    exists report, w'. split; [exact Hrun|].
    rewrite Hfound, Hsize, Hsample. by split; [|split].
Defined.

(** ** The JSON-RPC server *)

Section server.
Variable ItemData : Type.
Variable validate : ItemData → outcome WasteItem.t.


(** What [handle_request] does with a dict, step by step. *)
Lemma handle_request_run self r w :
  JSONRPCServer.handle_request ItemData validate self
    (JSONRPCServer.RequestDict ItemData r) w
  = match JSONRPCServer.find_handler ItemData validate
            (JSONRPCServer.method ItemData r) w with
    | (Raise e, w') =>
        (Return (JSONRPCServer.Error (JSONRPCServer.id ItemData r)
                   (-32603) (exc_str e), self), w')
    | (Return None, w') =>
        (Return (JSONRPCServer.Error (JSONRPCServer.id ItemData r)
                   (-32601) "Method not found", self), w')
    | (Return (Some handler), w') =>
        match handler self
                (default (JSONRPCServer.ParamsDict ItemData
                            (JSONRPCServer.mkParams ItemData None None None))
                   (JSONRPCServer.params ItemData r)) w' with
        | (Return (result, self'), w'') =>
            (Return (JSONRPCServer.Success (JSONRPCServer.id ItemData r)
                       result, self'), w'')
        | (Raise e, w'') =>
            (Return (JSONRPCServer.Error (JSONRPCServer.id ItemData r)
                       (-32603) (exc_str e), self), w'')
        end
    end.
Proof.
  unfold JSONRPCServer.handle_request, try_except.
  unfold mbind at 1, M_bind at 1. simpl.
  unfold mbind at 1, M_bind at 1.
  destruct (JSONRPCServer.find_handler _ _ _ w) as [[[handler|]|e] w'];
    [|done|done].
  unfold mbind at 1, M_bind at 1.
  by destruct (handler self _ w') as [[[result self']|e] w''].
Qed.

Lemma find_handler_run method w :
  JSONRPCServer.find_handler ItemData validate method w
  = (match method with
     | Some (JSONRPCServer.MethodStr s) =>
         Return (JSONRPCServer._handlers ItemData validate s)
     | Some (JSONRPCServer.MethodUnhashable type_name) =>
         Raise (JSONRPCServer.unhashable type_name)
     | Some JSONRPCServer.MethodOther | None => Return None
     end, w).
Proof. by destruct method as [[| |]|]. Qed.

Lemma build_items_raises before item_data after e items w :
  Forall (λ d, ∃ item, validate d = Return item) before →
  validate item_data = Raise e →
  JSONRPCServer.build_items ItemData validate (before ++ item_data :: after)
    items w
  = (Raise e, w).
Proof.
  intros Hbefore Hbad. revert items.
  induction Hbefore as [|d before [item Hd] _ IH]; intros items; simpl.
  - by rewrite Hbad.
  - rewrite Hd. apply IH.
Qed.


(** A cleanup request is validated as a whole before anything is removed:
    if one of its item records does not validate, the answer is error
    -32603 with the text of the first validation error, and the machine is
    untouched, whatever valid records come before and after it. *)
Theorem cleanup_request_validates_first
    self r ps before item_data after e w :
  JSONRPCServer.method ItemData r = Some (JSONRPCServer.MethodStr "cleanup") →
  JSONRPCServer.params ItemData r = Some (JSONRPCServer.ParamsDict ItemData ps) →
  JSONRPCServer.items ItemData ps = Some (before ++ item_data :: after) →
  Forall (λ d, ∃ item, validate d = Return item) before →
  validate item_data = Raise e →
  JSONRPCServer.handle_request ItemData validate self
    (JSONRPCServer.RequestDict ItemData r) w
  = (Return (JSONRPCServer.Error (JSONRPCServer.id ItemData r)
               (-32603) (exc_str e), self), w).
Proof.
  intros Hmethod Hparams Hitems Hbefore Hbad.
  rewrite handle_request_run, find_handler_run, Hmethod, Hparams. simpl.
  unfold JSONRPCServer.handle_cleanup.
  unfold mbind at 1, M_bind at 1. simpl. rewrite Hitems. simpl.
  unfold mbind at 1, M_bind at 1.
  by rewrite (build_items_raises _ _ _ e [] w Hbefore Hbad).
Qed.

(** [get_scan_results] is a read of the last successful scan.  After a
    scan request that succeeded, it answers with that very report, however
    much later it is asked, and touches neither the machine nor the
    server; a scan request that failed with an exception is answered with
    error -32603 and leaves the server as it was; and a server fresh from
    its constructor answers with no result. *)
Theorem scan_results_round_trip self scan_request ps get_request w w2 :
  JSONRPCServer.method ItemData scan_request
    = Some (JSONRPCServer.MethodStr "scan") →
  default (JSONRPCServer.ParamsDict ItemData
             (JSONRPCServer.mkParams ItemData None None None))
    (JSONRPCServer.params ItemData scan_request)
    = JSONRPCServer.ParamsDict ItemData ps →
  JSONRPCServer.method ItemData get_request
    = Some (JSONRPCServer.MethodStr "get_scan_results") →
  (∀ report w',
     ScannerManager.scan_system (JSONRPCServer.manager self)
       (JSONRPCServer.scanner_names ItemData ps) w
     = (Return report, w') →
     ∃ self',
       JSONRPCServer.handle_request ItemData validate self
         (JSONRPCServer.RequestDict ItemData scan_request) w
       = (Return (JSONRPCServer.Success (JSONRPCServer.id ItemData scan_request)
                    (JSONRPCServer.ScanDump report), self'), w')
       ∧ JSONRPCServer.handle_request ItemData validate self'
           (JSONRPCServer.RequestDict ItemData get_request) w2
         = (Return (JSONRPCServer.Success (JSONRPCServer.id ItemData get_request)
                      (JSONRPCServer.ScanDump report), self'), w2))
  ∧ (∀ e w',
       ScannerManager.scan_system (JSONRPCServer.manager self)
         (JSONRPCServer.scanner_names ItemData ps) w
       = (Raise e, w') →
       JSONRPCServer.handle_request ItemData validate self
         (JSONRPCServer.RequestDict ItemData scan_request) w
       = (Return (JSONRPCServer.Error (JSONRPCServer.id ItemData scan_request)
                    (-32603) (exc_str e), self), w'))
  ∧ (∀ fnmatch logger temp logs chrome firefox w0 w0',
       JSONRPCServer.__init__ fnmatch logger temp logs chrome firefox w0
       = (Return self, w0') →
       JSONRPCServer.handle_request ItemData validate self
         (JSONRPCServer.RequestDict ItemData get_request) w2
       = (Return (JSONRPCServer.Success (JSONRPCServer.id ItemData get_request)
                    JSONRPCServer.NoneResult, self), w2)).
Proof.
  intros Hscan Hparams Hget. split; [|split].
  - intros report w' Hrun. eexists. split.
    + rewrite handle_request_run, find_handler_run, Hscan, Hparams. simpl.
      unfold JSONRPCServer.handle_scan.
      unfold mbind at 1, M_bind at 1. simpl.
      unfold mbind at 1, M_bind at 1. rewrite Hrun. reflexivity.
    + rewrite handle_request_run, find_handler_run, Hget. reflexivity.
  - intros e w' Hrun.
    rewrite handle_request_run, find_handler_run, Hscan, Hparams. simpl.
    unfold JSONRPCServer.handle_scan.
    unfold mbind at 1, M_bind at 1. simpl.
    unfold mbind at 1, M_bind at 1. by rewrite Hrun.
  - intros fnmatch logger temp logs chrome firefox w0 w0' Hinit.
    assert (JSONRPCServer.last_scan_result self = None) as Hfresh.
    { unfold JSONRPCServer.__init__ in Hinit.
      unfold mbind at 1, M_bind at 1 in Hinit.
      destruct (_register_scanners _ _ _ _ _ _ w0) as [[manager|e] w1];
        [|done].
      by injection Hinit as <- _. }
    rewrite handle_request_run, find_handler_run, Hget. simpl.
    unfold JSONRPCServer.handle_get_scan_results. by rewrite Hfresh.
Qed.

End server.


Lemma cleanup_request_validates_first_witness :
  JSONRPCServer.handle_request (option WasteItem.t) sample_validate
    sample_server
    (JSONRPCServer.RequestDict _
       (JSONRPCServer.mkRequest _ (Some (JSONRPCServer.MethodStr "cleanup"))
          (Some (JSONRPCServer.ParamsDict _
                   (JSONRPCServer.mkParams _ None
                      (Some [Some a_tmp; None; Some z_log]) None)))
          (Some "8")))
    (sample_world hundred_days)
  = (Return (JSONRPCServer.Error (Some "8") (-32603)
               "1 validation error for WasteItem", sample_server),
     sample_world hundred_days).
Proof.
  apply (cleanup_request_validates_first (option WasteItem.t) sample_validate
           sample_server
           (JSONRPCServer.mkRequest _ (Some (JSONRPCServer.MethodStr "cleanup"))
              (Some (JSONRPCServer.ParamsDict _
                       (JSONRPCServer.mkParams _ None
                          (Some [Some a_tmp; None; Some z_log]) None)))
              (Some "8"))
           (JSONRPCServer.mkParams _ None (Some [Some a_tmp; None; Some z_log])
              None)
           [Some a_tmp] None [Some z_log]
           (Exn Exception "1 validation error for WasteItem")
           (sample_world hundred_days)).
  - reflexivity.
  - reflexivity.
  - reflexivity.
  - constructor; [by exists a_tmp | constructor].
  - reflexivity.
Defined.

Lemma scan_results_round_trip_witness :
  ∃ report self' w',
    JSONRPCServer.handle_request (option WasteItem.t) sample_validate
      sample_server
      (JSONRPCServer.RequestDict _
         (JSONRPCServer.mkRequest _ (Some (JSONRPCServer.MethodStr "scan"))
            None (Some "1")))
      (sample_world hundred_days)
    = (Return (JSONRPCServer.Success (Some "1") (JSONRPCServer.ScanDump report),
               self'), w')
    ∧ JSONRPCServer.handle_request (option WasteItem.t) sample_validate
        self'
        (JSONRPCServer.RequestDict _
           (JSONRPCServer.mkRequest _
              (Some (JSONRPCServer.MethodStr "get_scan_results")) None
              (Some "2")))
        (sample_world half_a_day)
      = (Return (JSONRPCServer.Success (Some "2") (JSONRPCServer.ScanDump report),
                 self'), sample_world half_a_day).
Proof.
  destruct (scan_system_run three_scanners None (sample_world hundred_days) LINUX)
    as (report & w' & Hrun & _).
  - vm_compute. reflexivity.
  - vm_compute. split; intros r w; eexists; reflexivity.
  - destruct (scan_results_round_trip (option WasteItem.t) sample_validate
                sample_server
                (JSONRPCServer.mkRequest _
                   (Some (JSONRPCServer.MethodStr "scan")) None (Some "1"))
                (JSONRPCServer.mkParams _ None None None)
                (JSONRPCServer.mkRequest _
                   (Some (JSONRPCServer.MethodStr "get_scan_results")) None
                   (Some "2"))
                (sample_world hundred_days) (sample_world half_a_day)
                eq_refl eq_refl eq_refl) as [Hround _].
    destruct (Hround report w' Hrun) as (self' & Hscan & Hget).
    by exists report, self', w'.
Defined.
